(** * RAG prototype front end: API client and UI controller

    A shallow embedding of the two TypeScript sources of the browser client

      - the API client ([API_BASE], [handleResponse] and the seven request
        wrappers), and
      - the React component [App] (its state, its asynchronous handlers, the
        mount effect, and the [disabled] attributes of its buttons),

    followed by the properties of the specification that concern them.

    Asynchronous functions are embedded as finite trees of effects
    ([Task]): a state setter, or an awaited [fetch] whose continuation
    receives what the network answered.  A task is given meaning in two
    ways: [run] answers every request at once from a scripted server (one
    handler running alone to completion), and [step] is the event loop of the
    page, in which requests stay in flight until an answer is delivered and
    several handlers overlap. *)

From Stdlib Require Import List ZArith NArith Bool String Ascii Lia.
From Stdlib Require Import DecimalString PrimFloat.
Import ListNotations.

Set Implicit Arguments.

(* ================================================================= *)
(** ** The JavaScript values the sources use *)

Module JS.

(** A JavaScript string is a sequence of UTF-16 code units. *)
Definition str : Type := list N.

(** Code units of a source literal.  A literal is written here as in the
    TypeScript file; Rocq stores it as UTF-8 bytes, which are decoded
    (characters outside the basic plane become a surrogate pair). *)
Fixpoint lit (s : string) : str :=
  match s with
  | EmptyString => []
  | String a0 s1 =>
      let b0 := N_of_ascii a0 in
      if (b0 <? 128)%N then b0 :: lit s1 else
      match s1 with
      | EmptyString => []
      | String a1 s2 =>
          let b1 := (N_of_ascii a1 - 128)%N in
          if (b0 <? 224)%N then ((b0 - 192) * 64 + b1)%N :: lit s2 else
          match s2 with
          | EmptyString => []
          | String a2 s3 =>
              let b2 := (N_of_ascii a2 - 128)%N in
              if (b0 <? 240)%N
              then ((b0 - 224) * 4096 + b1 * 64 + b2)%N :: lit s3 else
              match s3 with
              | EmptyString => []
              | String a3 s4 =>
                  let b3 := (N_of_ascii a3 - 128)%N in
                  let cp := ((b0 - 240) * 262144 + b1 * 4096 + b2 * 64 + b3)%N in
                  (55296 + (cp - 65536) / 1024)%N
                    :: (56320 + (cp - 65536) mod 1024)%N :: lit s4
              end
          end
      end
  end.

Arguments lit : simpl never.

(** Numbers.  Every number the client formats or sends is a count, a size
    or an index, so [number] is [Z]: an integer stands for the Number
    (binary64) value nearest to it, which is the integer itself whenever its
    magnitude is below [2 ^ 53].  The one exception is a search score, a
    binary64 value that is only carried around (see [SearchResult]). *)
Definition number : Type := Z.

(** All the decimal digits of an integer, with its sign. *)
Definition decimal (n : Z) : string := NilZero.string_of_int (Z.to_int n).

(** The Number value of a natural number: itself below [2 ^ 53]; above,
    the nearest multiple of the power of two that leaves 53 significant
    bits, ties to the even one; [None] is [Infinity]. *)
Definition nearest_binary64 (a : Z) : option Z :=
  (if a <? 2 ^ 53 then Some a else
   let e := Z.log2 a - 52 in
   let m := Z.shiftr a e in
   let rest := a - Z.shiftl m e in
   let half := Z.shiftl 1 (e - 1) in
   let m' := if (half <? rest) || ((rest =? half) && Z.odd m) then m + 1 else m in
   let v := Z.shiftl m' e in
   if 2 ^ 1024 <=? v then None else Some v)%Z.

(** The decimal [c] reads back as the Number [v]. *)
Definition reads_as (c v : Z) : bool :=
  match nearest_binary64 c with Some v' => (v' =? v)%Z | None => false end.

(** [Number::toString] of ECMAScript, step 5: the integer with the fewest
    significant digits [k] that reads back as the Number [v] (of [n]
    digits), the closest one to [v] if there are two, the even one if they
    are as close. *)
Fixpoint shortest (fuel : nat) (k n v : Z) : Z :=
  match fuel with
  | O => v
  | S fuel' =>
      (let p := 10 ^ Z.max 0 (n - k) in
       let lo := v / p * p in
       let hi := lo + p in
       match reads_as lo v, reads_as hi v with
       | true, true =>
           if v - lo <? hi - v then lo
           else if hi - v <? v - lo then hi
           else if Z.even (lo / p) then lo else hi
       | true, false => lo
       | false, true => hi
       | false, false => shortest fuel' (k + 1) n v
       end)%Z
  end.

(** The digits without the zeros at their end. *)
Fixpoint drop_zeros (s : string) : string :=
  match s with
  | EmptyString => EmptyString
  | String c t =>
      match drop_zeros t with
      | EmptyString => if Ascii.eqb c "0" then EmptyString else String c EmptyString
      | t' => String c t'
      end
  end.

(** [Number::toString], steps 6 to 10, for an integer: all its digits up
    to 21 of them, the exponent notation beyond. *)
Definition print (c : Z) : string :=
  let d := decimal c in
  let n := Z.of_nat (String.length d) in
  if (n <=? 21)%Z then d else
  match drop_zeros d with
  | String h EmptyString => String h ("e+" ++ decimal (n - 1))
  | String h t => String h ("." ++ t ++ "e+" ++ decimal (n - 1))
  | EmptyString => d
  end.

(** [String(n)] and [`${n}`] for an integral number: its decimal digits
    while its magnitude is below [2 ^ 53]; beyond, the shortest digits that
    identify the Number ([String(2 ** 60)] is ["1152921504606847000"],
    [String(1e21)] is ["1e+21"]). *)
Definition String_ (n : number) : str :=
  lit (if (Z.abs n <? 2 ^ 53)%Z then decimal n else
       String.append (if (n <? 0)%Z then "-" else "")
         match nearest_binary64 (Z.abs n) with
         | None => "Infinity"
         | Some v => print (shortest 17 1 (Z.of_nat (String.length (decimal v))) v)
         end).

Arguments String_ : simpl never.

(** Truthiness of a string: only the empty string is falsy. *)
Definition truthy (s : str) : bool :=
  match s with
  | [] => false
  | _ :: _ => true
  end.

(** [a || b] on strings. *)
Definition or_else (a b : str) : str := if truthy a then a else b.

(** ECMAScript WhiteSpace and LineTerminator code points, the ones
    [String.prototype.trim] removes. *)
Definition white_space : list N :=
  [ 9; 10; 11; 12; 13; 32; 160; 5760;
    8192; 8193; 8194; 8195; 8196; 8197; 8198; 8199; 8200; 8201; 8202;
    8232; 8233; 8239; 8287; 12288; 65279 ]%N.

Definition isWhiteSpace (c : N) : bool := existsb (N.eqb c) white_space.

Fixpoint trimStart (s : str) : str :=
  match s with
  | [] => []
  | c :: r => if isWhiteSpace c then trimStart r else s
  end.

Definition trimEnd (s : str) : str := rev (trimStart (rev s)).

Definition trim (s : str) : str := trimEnd (trimStart s).

(** [new Error(message)]; handlers read [err.message]. *)
Record Error : Type := new_Error { message : str }.

(** How a promise settles. *)
Inductive Settled (A : Type) : Type :=
| Fulfilled (a : A)
| Rejected (e : Error).
Arguments Rejected {A} e.

(** A browser [File]: its name and its bytes. *)
Record File : Type := { file_label : str; file_bytes : list N }.

(** [FormData]: the entries in the order they were appended. *)
Inductive FormValue : Type :=
| FileValue (f : File)
| TextValue (s : str).

Definition FormData : Type := list (str * FormValue).

Definition append (fd : FormData) (name : str) (v : FormValue) : FormData :=
  fd ++ [(name, v)].

(** The object literals handed to [JSON.stringify]. *)
Inductive JsonValue : Type :=
| JString (s : str)
| JNumber (n : number).

Definition JsonObject : Type := list (str * JsonValue).

(** A request body: absent, a form, or [JSON.stringify] of a value (the
    serialised text is not spelled out; the value determines it). *)
Inductive Body : Type :=
| NoBody
| FormBody (fd : FormData)
| JSON_stringify (j : JsonObject).

Inductive Method : Type := GET | POST.

(** What [fetch(url, init)] sends. *)
Record Request : Type := {
  url : str;
  method : Method;
  headers : list (str * str);
  body : Body
}.

(** What the code observes of a [Response] whose body is read as [T]:
    the [ok] flag, what [text()] resolves to, and how [json()] settles
    (it rejects when the body is not JSON). *)
Record Response (T : Type) : Type := {
  ok : bool;
  text : str;
  json : Settled T
}.

End JS.
Import JS.

(* ================================================================= *)
(** ** api.ts: the data transfer objects *)

Module UploadResponse.
Record t : Type := {
  document_id : str;
  file_name : str;
  num_chars : number;
  num_chunks : number;
  encoder_name : str;
  chunk_size : number;
  chunk_overlap : number
}.
End UploadResponse.

Module ChunkSummary.
Record t : Type := { chunk_id : number; text : str }.
End ChunkSummary.

(** [interface CurrentDocumentResponse extends UploadResponse {}] *)
Module CurrentDocumentResponse.
Definition t : Type := UploadResponse.t.
End CurrentDocumentResponse.

Module SearchResult.
(** [score] is a floating-point number that the client never computes
    with. *)
Record t : Type := { chunk_id : number; score : float; text : str }.
End SearchResult.

Module SearchResponse.
Record t : Type := { results : list SearchResult.t }.
End SearchResponse.

Module StorageEntry.
Record t : Type := { file_name : str; size_bytes : number; modified_at : str }.
End StorageEntry.

Module StorageUploadResponse.
Record t : Type := { file_name : str; size_bytes : number; stored : bool }.
End StorageUploadResponse.

Module LoadParams.
Record t : Type := {
  file_name : str;
  encoder_name : str;
  chunk_size : number;
  chunk_overlap : number
}.
End LoadParams.

(* ================================================================= *)
(** ** Asynchronous functions *)

(** The type argument of [handleResponse<T>]: the shape a call site reads
    the response body as. *)
Inductive Shape : Type -> Type :=
| AsUploadResponse : Shape UploadResponse.t
| AsCurrentDocumentResponse : Shape CurrentDocumentResponse.t
| AsChunkSummaries : Shape (list ChunkSummary.t)
| AsSearchResponse : Shape SearchResponse.t
| AsStorageEntries : Shape (list StorageEntry.t)
| AsStorageUploadResponse : Shape StorageUploadResponse.t.

Section Tasks.

(** The setters an asynchronous function may call; [App] instantiates it
    with the setters of its [useState] cells. *)
Variable Update : Type.

(** An [async] function body: it returns, throws, calls a setter and goes
    on, or awaits a [fetch] and goes on with how that promise settled. *)
Inductive Task (A : Type) : Type :=
| Return (a : A)
| Throw (e : Error)
| Do (u : Update) (k : Task A)
| Await (T : Type) (sh : Shape T) (req : Request)
        (k : Settled (Response T) -> Task A).
Arguments Return {A} a.
Arguments Throw {A} e.
Arguments Do {A} u k.
Arguments Await {A T} sh req k.

(** [await t; f(x)] *)
Fixpoint bind {A B : Type} (t : Task A) (f : A -> Task B) : Task B :=
  match t with
  | Return a => f a
  | Throw e => Throw e
  | Do u k => Do u (bind k f)
  | Await sh req k => Await sh req (fun r => bind (k r) f)
  end.

(** [try { t } catch (err) { h(err) }] *)
Fixpoint try_catch {A : Type} (t : Task A) (h : Error -> Task A) : Task A :=
  match t with
  | Return a => Return a
  | Throw e => h e
  | Do u k => Do u (try_catch k h)
  | Await sh req k => Await sh req (fun r => try_catch (k r) h)
  end.

(** [try { t } finally { f }]: [f] runs on both exits, then the exit of
    [t] is resumed. *)
Fixpoint finally {A : Type} (t : Task A) (f : Task unit) : Task A :=
  match t with
  | Return a => bind f (fun _ => Return a)
  | Throw e => bind f (fun _ => Throw e)
  | Do u k => Do u (finally k f)
  | Await sh req k => Await sh req (fun r => finally (k r) f)
  end.

(** [try { t } catch (err) { h(err) } finally { f }] *)
Definition try_catch_finally {A : Type}
  (t : Task A) (h : Error -> Task A) (f : Task unit) : Task A :=
  finally (try_catch t h) f.

(** A setter call as a statement. *)
Definition call (u : Update) : Task unit := Do u (Return tt).

(** [await fetch(url, init)]: the promise of [fetch] rejects on a network
    failure and is fulfilled with the response otherwise, whatever its
    status. *)
Definition fetch {T : Type} (sh : Shape T) (req : Request) : Task (Response T) :=
  Await sh req (fun r =>
    match r with
    | Fulfilled res => Return res
    | Rejected e => Throw e
    end).

(** [await p] for a promise that has settled. *)
Definition await {A : Type} (p : Settled A) : Task A :=
  match p with
  | Fulfilled a => Return a
  | Rejected e => Throw e
  end.

End Tasks.

Arguments Return {Update A} a.
Arguments Throw {Update A} e.
Arguments fetch {Update T} sh req.
Arguments await {Update A} p.

Notation "x <- t ;; k" := (bind t (fun x => k))
  (at level 61, t at next level, right associativity).
Notation "t ;; k" := (bind t (fun _ => k))
  (at level 61, right associativity).

(* ----------------------------------------------------------------- *)
(** *** api.ts *)

Definition API_BASE : str := lit "http://localhost:8000".
Arguments API_BASE : simpl never.

Definition handleResponse {Update T : Type} (response : Response T) : Task Update T :=
  if negb (ok response) then
    let text := text response in
    Throw (new_Error (or_else text (lit "Ошибка запроса")))
  else
    await (json response).

Definition uploadAndIndexDocument {Update : Type} (formData : FormData) :
  Task Update UploadResponse.t :=
  res <- fetch AsUploadResponse
           {| url := API_BASE ++ lit "/api/upload";
              method := POST;
              headers := [];
              body := FormBody formData |} ;;
  handleResponse res.

Definition getCurrentDocument {Update : Type} :
  Task Update CurrentDocumentResponse.t :=
  res <- fetch AsCurrentDocumentResponse
           {| url := API_BASE ++ lit "/api/document/current";
              method := GET;
              headers := [];
              body := NoBody |} ;;
  handleResponse res.

Definition getCurrentChunks {Update : Type} :
  Task Update (list ChunkSummary.t) :=
  res <- fetch AsChunkSummaries
           {| url := API_BASE ++ lit "/api/document/current/chunks";
              method := GET;
              headers := [];
              body := NoBody |} ;;
  handleResponse res.

Definition searchInDocument {Update : Type} (query : str) (topK : number) :
  Task Update SearchResponse.t :=
  res <- fetch AsSearchResponse
           {| url := API_BASE ++ lit "/api/search";
              method := POST;
              headers := [(lit "Content-Type", lit "application/json")];
              body := JSON_stringify
                        [(lit "query", JString query); (lit "top_k", JNumber topK)] |} ;;
  handleResponse res.

Definition listStorageDocuments {Update : Type} :
  Task Update (list StorageEntry.t) :=
  res <- fetch AsStorageEntries
           {| url := API_BASE ++ lit "/api/storage/list";
              method := GET;
              headers := [];
              body := NoBody |} ;;
  handleResponse res.

Definition uploadToStorage {Update : Type} (formData : FormData) :
  Task Update StorageUploadResponse.t :=
  res <- fetch AsStorageUploadResponse
           {| url := API_BASE ++ lit "/api/storage/upload";
              method := POST;
              headers := [];
              body := FormBody formData |} ;;
  handleResponse res.

Definition loadFromStorage {Update : Type} (params : LoadParams.t) :
  Task Update UploadResponse.t :=
  res <- fetch AsUploadResponse
           {| url := API_BASE ++ lit "/api/storage/load";
              method := POST;
              headers := [(lit "Content-Type", lit "application/json")];
              body := JSON_stringify
                        [(lit "file_name", JString (LoadParams.file_name params));
                         (lit "encoder_name", JString (LoadParams.encoder_name params));
                         (lit "chunk_size", JNumber (LoadParams.chunk_size params));
                         (lit "chunk_overlap", JNumber (LoadParams.chunk_overlap params))] |} ;;
  handleResponse res.

(* ================================================================= *)
(** ** App.tsx: the state of the component *)

(** ['mini' | 'labse'] *)
Inductive Encoder : Type := mini | labse.

Definition Encoder_str (e : Encoder) : str :=
  match e with
  | mini => lit "mini"
  | labse => lit "labse"
  end.

(** The [useState] cells. *)
Record View : Type := {
  encoderName : Encoder;
  chunkSize : number;
  chunkOverlap : number;
  currentDoc : option CurrentDocumentResponse.t;
  chunks : list ChunkSummary.t;
  storage : list StorageEntry.t;
  query : str;
  topK : number;
  searchResults : list SearchResult.t;
  status : str;
  isLoading : bool
}.

(** The initial values given to [useState]. *)
Definition initial_view : View := {|
  encoderName := mini;
  chunkSize := 800%Z;
  chunkOverlap := 200%Z;
  currentDoc := None;
  chunks := [];
  storage := [];
  query := [];
  topK := 3%Z;
  searchResults := [];
  status := lit "Документ не загружен";
  isLoading := false
|}.

(** The setters returned by [useState]; every call in the component passes
    a value, never an updater function. *)
Inductive Update : Type :=
| setEncoderName (e : Encoder)
| setChunkSize (n : number)
| setChunkOverlap (n : number)
| setCurrentDoc (d : option CurrentDocumentResponse.t)
| setChunks (l : list ChunkSummary.t)
| setStorage (l : list StorageEntry.t)
| setQuery (s : str)
| setTopK (n : number)
| setSearchResults (l : list SearchResult.t)
| setStatus (s : str)
| setIsLoading (b : bool).

Definition apply (u : Update) (v : View) : View :=
  match u with
  | setEncoderName e =>
      {| encoderName := e; chunkSize := chunkSize v; chunkOverlap := chunkOverlap v;
         currentDoc := currentDoc v; chunks := chunks v; storage := storage v;
         query := query v; topK := topK v; searchResults := searchResults v;
         status := status v; isLoading := isLoading v |}
  | setChunkSize n =>
      {| encoderName := encoderName v; chunkSize := n; chunkOverlap := chunkOverlap v;
         currentDoc := currentDoc v; chunks := chunks v; storage := storage v;
         query := query v; topK := topK v; searchResults := searchResults v;
         status := status v; isLoading := isLoading v |}
  | setChunkOverlap n =>
      {| encoderName := encoderName v; chunkSize := chunkSize v; chunkOverlap := n;
         currentDoc := currentDoc v; chunks := chunks v; storage := storage v;
         query := query v; topK := topK v; searchResults := searchResults v;
         status := status v; isLoading := isLoading v |}
  | setCurrentDoc d =>
      {| encoderName := encoderName v; chunkSize := chunkSize v;
         chunkOverlap := chunkOverlap v;
         currentDoc := d; chunks := chunks v; storage := storage v;
         query := query v; topK := topK v; searchResults := searchResults v;
         status := status v; isLoading := isLoading v |}
  | setChunks l =>
      {| encoderName := encoderName v; chunkSize := chunkSize v;
         chunkOverlap := chunkOverlap v;
         currentDoc := currentDoc v; chunks := l; storage := storage v;
         query := query v; topK := topK v; searchResults := searchResults v;
         status := status v; isLoading := isLoading v |}
  | setStorage l =>
      {| encoderName := encoderName v; chunkSize := chunkSize v;
         chunkOverlap := chunkOverlap v;
         currentDoc := currentDoc v; chunks := chunks v; storage := l;
         query := query v; topK := topK v; searchResults := searchResults v;
         status := status v; isLoading := isLoading v |}
  | setQuery s =>
      {| encoderName := encoderName v; chunkSize := chunkSize v;
         chunkOverlap := chunkOverlap v;
         currentDoc := currentDoc v; chunks := chunks v; storage := storage v;
         query := s; topK := topK v; searchResults := searchResults v;
         status := status v; isLoading := isLoading v |}
  | setTopK n =>
      {| encoderName := encoderName v; chunkSize := chunkSize v;
         chunkOverlap := chunkOverlap v;
         currentDoc := currentDoc v; chunks := chunks v; storage := storage v;
         query := query v; topK := n; searchResults := searchResults v;
         status := status v; isLoading := isLoading v |}
  | setSearchResults l =>
      {| encoderName := encoderName v; chunkSize := chunkSize v;
         chunkOverlap := chunkOverlap v;
         currentDoc := currentDoc v; chunks := chunks v; storage := storage v;
         query := query v; topK := topK v; searchResults := l;
         status := status v; isLoading := isLoading v |}
  | setStatus s =>
      {| encoderName := encoderName v; chunkSize := chunkSize v;
         chunkOverlap := chunkOverlap v;
         currentDoc := currentDoc v; chunks := chunks v; storage := storage v;
         query := query v; topK := topK v; searchResults := searchResults v;
         status := s; isLoading := isLoading v |}
  | setIsLoading b =>
      {| encoderName := encoderName v; chunkSize := chunkSize v;
         chunkOverlap := chunkOverlap v;
         currentDoc := currentDoc v; chunks := chunks v; storage := storage v;
         query := query v; topK := topK v; searchResults := searchResults v;
         status := status v; isLoading := b |}
  end.

(** An [<input type="file">] element as the handlers read it, and the
    [dataTransfer] of a drag event. *)
Record HTMLInputElement : Type := { files : option (list File) }.
Record DragEvent : Type := { dataTransfer : option (list File) }.

(** An [async] function of the component. *)
Definition Handler : Type := Task Update unit.

(* ----------------------------------------------------------------- *)
(** *** The handlers *)

(** The template literal of lines 47, 118 and 177. *)
Definition current_document_line (info : UploadResponse.t) : str :=
  lit "Текущий документ: " ++ UploadResponse.file_name info
    ++ lit ", чанков: " ++ String_ (UploadResponse.num_chunks info)
    ++ lit ", модель: " ++ UploadResponse.encoder_name info.

Definition refreshStorage : Handler :=
  try_catch
    (list <- listStorageDocuments ;;
     call (setStorage list))
    (fun err => call (setStatus (lit "Ошибка: " ++ message err))).

Definition refreshCurrentDocument : Handler :=
  try_catch
    (info <- getCurrentDocument ;;
     call (setCurrentDoc (Some info)) ;;
     call (setStatus (current_document_line info)))
    (fun err =>
       call (setCurrentDoc None) ;;
       call (setStatus (lit "Документ не загружен"))).

Definition refreshChunks : Handler :=
  try_catch
    (data <- getCurrentChunks ;;
     call (setChunks data))
    (fun err =>
       call (setChunks []) ;;
       call (setStatus (lit "Нет документа или не удалось загрузить чанки"))).

(** The body of the first [useEffect]: [refreshStorage()] is started and
    not awaited, then [refreshCurrentDocument().then(() => refreshChunks())]. *)
Definition mount_effect : list Handler :=
  [ refreshStorage;
    (refreshCurrentDocument ;; refreshChunks) ].

(** [handleDrop] of the second [useEffect] ([preventDefault] apart). *)
Definition handleDrop (e : DragEvent) : Handler :=
  match dataTransfer e with
  | None => Return tt
  | Some files =>
      match nth_error files 0 with
      | None => Return tt
      | Some file =>
          let formData := append [] (lit "file") (FileValue file) in
          call (setStatus (lit "Загрузка файла в хранилище...")) ;;
          try_catch
            (uploadToStorage formData ;;
             call (setStatus (lit "Файл добавлен в хранилище")) ;;
             refreshStorage)
            (fun err => call (setStatus (lit "Ошибка: " ++ message err)))
      end
  end.

(** [uploadInputRef.current.files[0]] when the three tests of line 103
    pass. *)
Definition chosen_file (uploadInputRef : option HTMLInputElement) : option File :=
  match uploadInputRef with
  | None => None
  | Some current =>
      match files current with
      | None => None
      | Some files => nth_error files 0
      end
  end.

(** The handlers below are closures of one render: [s] is the state of the
    render whose button was clicked. *)
Definition handleUploadAndIndex
  (uploadInputRef : option HTMLInputElement) (s : View) : Handler :=
  match chosen_file uploadInputRef with
  | None => call (setStatus (lit "Выберите .txt файл для загрузки"))
  | Some file =>
      let formData := append [] (lit "file") (FileValue file) in
      let formData := append formData (lit "encoder_name")
                        (TextValue (Encoder_str (encoderName s))) in
      let formData := append formData (lit "chunk_size")
                        (TextValue (String_ (chunkSize s))) in
      let formData := append formData (lit "chunk_overlap")
                        (TextValue (String_ (chunkOverlap s))) in
      call (setIsLoading true) ;;
      call (setStatus (lit "Загрузка и индексация...")) ;;
      try_catch_finally
        (resp <- uploadAndIndexDocument formData ;;
         call (setCurrentDoc (Some resp)) ;;
         refreshChunks ;;
         call (setStatus (current_document_line resp)))
        (fun err => call (setStatus (lit "Ошибка: " ++ message err)))
        (call (setIsLoading false))
  end.

Definition handleSearch (s : View) : Handler :=
  if negb (truthy (trim (query s))) then
    call (setStatus (lit "Введите запрос для поиска"))
  else
    call (setIsLoading true) ;;
    call (setStatus (lit "Идёт поиск...")) ;;
    try_catch_finally
      (res <- searchInDocument (query s) (topK s) ;;
       call (setSearchResults (SearchResponse.results res)) ;;
       call (setStatus (lit "Найдено результатов: "
                          ++ String_ (Z.of_nat (List.length (SearchResponse.results res))))))
      (fun err =>
         call (setStatus (lit "Ошибка: " ++ message err)) ;;
         call (setSearchResults []))
      (call (setIsLoading false)).

(** [input.onchange] of [handleStorageUploadClick]. *)
Definition storage_input_onchange (input : HTMLInputElement) : Handler :=
  match chosen_file (Some input) with
  | None => Return tt
  | Some file =>
      let formData := append [] (lit "file") (FileValue file) in
      call (setStatus (lit "Загрузка файла в хранилище...")) ;;
      try_catch
        (uploadToStorage formData ;;
         refreshStorage ;;
         call (setStatus (lit "Файл добавлен в хранилище")))
        (fun err => call (setStatus (lit "Ошибка: " ++ message err)))
  end.

Definition handleMakeCurrent (s : View) (fileName : str) : Handler :=
  call (setIsLoading true) ;;
  call (setStatus (lit "Загрузка из хранилища...")) ;;
  try_catch_finally
    (resp <- loadFromStorage
               {| LoadParams.file_name := fileName;
                  LoadParams.encoder_name := Encoder_str (encoderName s);
                  LoadParams.chunk_size := chunkSize s;
                  LoadParams.chunk_overlap := chunkOverlap s |} ;;
     call (setCurrentDoc (Some resp)) ;;
     refreshChunks ;;
     call (setStatus (current_document_line resp)))
    (fun err => call (setStatus (lit "Ошибка: " ++ message err)))
    (call (setIsLoading false)).

(* ================================================================= *)
(** ** One handler running alone *)

(** A scripted server: how the [fetch] of a request settles, given the
    shape its body is read as and the number of requests sent before it. *)
Definition Server : Type :=
  forall T : Type, Shape T -> Request -> nat -> Settled (Response T).

Record World : Type := {
  view : View;
  sent : list Request
}.

(** Runs a task to its end; every awaited request is answered at once by
    the server and recorded in [sent]. *)
Fixpoint run {A : Type} (srv : Server) (t : Task Update A) (w : World)
  : Settled A * World :=
  match t with
  | Return a => (Fulfilled a, w)
  | Throw e => (Rejected e, w)
  | Do u k => run srv k {| view := apply u (view w); sent := sent w |}
  | Await sh req k =>
      run srv (k (srv _ sh req (List.length (sent w))))
        {| view := view w; sent := sent w ++ [req] |}
  end.

(* ================================================================= *)
(** ** The page: rendering and the event loop *)

(** The [<button>] elements of the JSX, in document order. *)
Inductive Button : Type :=
| RefreshStorageButton
| MakeCurrentButton (file_name : str)
| ChooseFileButton
| UploadAndIndexButton
| RefreshChunksButton
| SearchButton
| CopyButton (text : str).

(** The buttons of a render, each with its [disabled] attribute. *)
Definition render_buttons (s : View) : list (Button * bool) :=
  [ (RefreshStorageButton, false) ]
  ++ map (fun doc => (MakeCurrentButton (StorageEntry.file_name doc), false)) (storage s)
  ++ [ (ChooseFileButton, false);
       (UploadAndIndexButton, isLoading s);
       (RefreshChunksButton, false);
       (SearchButton, isLoading s) ]
  ++ map (fun res => (CopyButton (SearchResult.text res), false)) (searchResults s).

Definition str_eqb (a b : str) : bool :=
  if list_eq_dec N.eq_dec a b then true else false.

Definition Button_eqb (a b : Button) : bool :=
  match a, b with
  | RefreshStorageButton, RefreshStorageButton => true
  | MakeCurrentButton x, MakeCurrentButton y => str_eqb x y
  | ChooseFileButton, ChooseFileButton => true
  | UploadAndIndexButton, UploadAndIndexButton => true
  | RefreshChunksButton, RefreshChunksButton => true
  | SearchButton, SearchButton => true
  | CopyButton x, CopyButton y => str_eqb x y
  | _, _ => false
  end.

(** A button can be clicked when a render shows it and it is not
    disabled. *)
Definition clickable (s : View) (b : Button) : bool :=
  existsb (fun r => Button_eqb (fst r) b && negb (snd r)) (render_buttons s).

(** [onClick] of each button, as a closure of the render with state [s].
    [handleStorageUploadClick] only opens a file dialog (its [onchange] is
    the event [FileChosen]); the copy button writes to the clipboard. *)
Definition onClick (uploadInputRef : option HTMLInputElement) (s : View)
  (b : Button) : Handler :=
  match b with
  | RefreshStorageButton => refreshStorage
  | MakeCurrentButton file_name => handleMakeCurrent s file_name
  | ChooseFileButton => Return tt
  | UploadAndIndexButton => handleUploadAndIndex uploadInputRef s
  | RefreshChunksButton => refreshChunks
  | SearchButton => handleSearch s
  | CopyButton _ => Return tt
  end.

(** A handler suspended at an [await fetch(...)]. *)
Inductive Pending : Type :=
| Waiting (T : Type) (sh : Shape T) (req : Request)
          (k : Settled (Response T) -> Handler).

Record Page : Type := {
  ui : View;
  uploadInput : option HTMLInputElement;
  inflight : list Pending;
  issued : list Request
}.

(** Runs a handler up to its next [await fetch(...)], where it is parked
    with the request it sent, or to its end.  A rejection nobody catches
    changes nothing. *)
Fixpoint advance (t : Handler) (p : Page) : Page :=
  match t with
  | Return _ => p
  | Throw _ => p
  | Do u k =>
      advance k {| ui := apply u (ui p); uploadInput := uploadInput p;
                   inflight := inflight p; issued := issued p |}
  | Await sh req k =>
      {| ui := ui p; uploadInput := uploadInput p;
         inflight := inflight p ++ [Waiting sh req k];
         issued := issued p ++ [req] |}
  end.

(** What the network delivers for a request in flight. *)
Definition Answer : Type := forall T : Type, Shape T -> Settled (Response T).

Definition resume (a : Answer) (w : Pending) : Handler :=
  match w with
  | Waiting sh _ k => k (a _ sh)
  end.

(** The [onChange] of the radio buttons, the number inputs and the
    textarea. *)
Inductive Edit : Type :=
| ChooseEncoder (e : Encoder)
| TypeChunkSize (n : number)
| TypeChunkOverlap (n : number)
| TypeQuery (s : str)
| TypeTopK (n : number).

Definition onChange (c : Edit) : Handler :=
  match c with
  | ChooseEncoder e => call (setEncoderName e)
  | TypeChunkSize n => call (setChunkSize n)
  | TypeChunkOverlap n => call (setChunkOverlap n)
  | TypeQuery s => call (setQuery s)
  | TypeTopK n => call (setTopK n)
  end.

(** What can happen to the page: a click on a button, a file chosen in
    the dialog of [handleStorageUploadClick], a drop on the drop zone, a
    file picked in the upload input, an edit, and the answer to the [i]-th
    request in flight. *)
Inductive Event : Type :=
| Click (b : Button)
| FileChosen (input : HTMLInputElement)
| Drop (e : DragEvent)
| PickUploadFile (input : HTMLInputElement)
| Change (c : Edit)
| Settle (i : nat) (a : Answer).

(** The page before the mount effect has run. *)
Definition first_render : Page := {|
  ui := initial_view;
  uploadInput := Some {| files := Some [] |};
  inflight := [];
  issued := []
|}.

(** The mount effect starts its handlers one after the other. *)
Definition mount (p : Page) : Page :=
  fold_left (fun p h => advance h p) mount_effect p.

(** A page without its [i]-th request in flight. *)
Definition settled (i : nat) (p : Page) : Page :=
  {| ui := ui p; uploadInput := uploadInput p;
     inflight := firstn i (inflight p) ++ skipn (S i) (inflight p);
     issued := issued p |}.

(** One turn of the event loop; [None] when the event cannot happen (the
    button is absent or disabled, or no such request is in flight). *)
Definition step (e : Event) (p : Page) : option Page :=
  match e with
  | Click b =>
      if clickable (ui p) b
      then Some (advance (onClick (uploadInput p) (ui p) b) p)
      else None
  | FileChosen input => Some (advance (storage_input_onchange input) p)
  | Drop e => Some (advance (handleDrop e) p)
  | PickUploadFile input =>
      Some {| ui := ui p; uploadInput := Some input;
              inflight := inflight p; issued := issued p |}
  | Change c => Some (advance (onChange c) p)
  | Settle i a =>
      match nth_error (inflight p) i with
      | None => None
      | Some w => Some (advance (resume a w) (settled i p))
      end
  end.

(** A sequence of turns. *)
Fixpoint steps (es : list Event) (p : Page) : option Page :=
  match es with
  | [] => Some p
  | e :: es' =>
      match step e p with
      | None => None
      | Some p' => steps es' p'
      end
  end.

(* ================================================================= *)
(** ** Vocabulary of the specification *)

(** The exported functions of the API client, each with its arguments. *)
Inductive ApiCall : Type -> Type :=
| call_uploadAndIndexDocument (formData : FormData) : ApiCall UploadResponse.t
| call_getCurrentDocument : ApiCall CurrentDocumentResponse.t
| call_getCurrentChunks : ApiCall (list ChunkSummary.t)
| call_searchInDocument (query : str) (topK : number) : ApiCall SearchResponse.t
| call_listStorageDocuments : ApiCall (list StorageEntry.t)
| call_uploadToStorage (formData : FormData) : ApiCall StorageUploadResponse.t
| call_loadFromStorage (params : LoadParams.t) : ApiCall UploadResponse.t.

Definition api {T : Type} (c : ApiCall T) : Task Update T :=
  match c with
  | call_uploadAndIndexDocument formData => uploadAndIndexDocument formData
  | call_getCurrentDocument => getCurrentDocument
  | call_getCurrentChunks => getCurrentChunks
  | call_searchInDocument query topK => searchInDocument query topK
  | call_listStorageDocuments => listStorageDocuments
  | call_uploadToStorage formData => uploadToStorage formData
  | call_loadFromStorage params => loadFromStorage params
  end.

Definition shape_of {T : Type} (c : ApiCall T) : Shape T :=
  match c with
  | call_uploadAndIndexDocument _ => AsUploadResponse
  | call_getCurrentDocument => AsCurrentDocumentResponse
  | call_getCurrentChunks => AsChunkSummaries
  | call_searchInDocument _ _ => AsSearchResponse
  | call_listStorageDocuments => AsStorageEntries
  | call_uploadToStorage _ => AsStorageUploadResponse
  | call_loadFromStorage _ => AsUploadResponse
  end.

(** The server settles every [fetch] read as [sh] in the same way. *)
Definition answers {T : Type} (srv : Server) (sh : Shape T)
  (a : Settled (Response T)) : Prop :=
  forall req n, srv T sh req n = a.

(** The response-handling rule in the words of the specification: on a
    non-success status the call throws an error whose message is the body
    text when that text is not empty and the fixed fallback otherwise; on
    a success status it settles as the parse of the JSON body does. *)
Definition response_rule {T : Type} (r : Response T) (result : Settled T) : Prop :=
  if ok r then result = json r
  else exists e, result = Rejected e /\
         (text r <> [] -> message e = text r) /\
         (text r = [] -> message e = lit "Ошибка запроса").

(** A query that is empty or consists only of white space. *)
Definition blank (q : str) : Prop := Forall (fun c => In c white_space) q.

(* ----------------------------------------------------------------- *)
(** *** Worlds after a handler *)

(** A setter call in a world. *)
Definition after (u : Update) (w : World) : World :=
  {| view := apply u (view w); sent := sent w |}.

(** The form data of [handleUploadAndIndex]. *)
Definition upload_form (file : File) (s : View) : FormData :=
  [ (lit "file", FileValue file);
    (lit "encoder_name", TextValue (Encoder_str (encoderName s)));
    (lit "chunk_size", TextValue (String_ (chunkSize s)));
    (lit "chunk_overlap", TextValue (String_ (chunkOverlap s))) ].

(** The common part of [handleUploadAndIndex] and [handleMakeCurrent]
    after the descriptor has arrived. *)
Definition adopt (srv : Server) (resp : UploadResponse.t) (w : World) : World :=
  after (setIsLoading false)
    (after (setStatus (current_document_line resp))
       (snd (run srv refreshChunks (after (setCurrentDoc (Some resp)) w)))).

Definition report_failure (err : Error) (w : World) : World :=
  after (setIsLoading false)
    (after (setStatus (lit "Ошибка: " ++ message err)) w).

(** What [refreshChunks] leaves in the chunk list: the chunks the server
    returned, or nothing when the request failed. *)
Definition refreshed_chunks (outcome : Settled (list ChunkSummary.t))
  : list ChunkSummary.t :=
  match outcome with
  | Fulfilled data => data
  | Rejected _ => []
  end.

(** The parameters [handleMakeCurrent] sends for a stored file. *)
Definition load_params (fileName : str) (s : View) : LoadParams.t := {|
  LoadParams.file_name := fileName;
  LoadParams.encoder_name := Encoder_str (encoderName s);
  LoadParams.chunk_size := chunkSize s;
  LoadParams.chunk_overlap := chunkOverlap s
|}.

(** The end of a handler whose chunk refresh failed: the refresh left
    [mid], with an empty chunk list and the chunk-error status, and the
    handler then set the status of the new current document and lowered the
    busy flag. *)
Definition overwrites_chunk_error (resp : UploadResponse.t) (w' : World) : Prop :=
  exists mid : World,
    chunks (view mid) = [] /\
    status (view mid) = lit "Нет документа или не удалось загрузить чанки" /\
    currentDoc (view mid) = Some resp /\
    w' = after (setIsLoading false)
           (after (setStatus (current_document_line resp)) mid).

(* ----------------------------------------------------------------- *)
(** *** Sample data: the scenarios of the specification *)

(** A server that settles a request by its shape alone. *)
Definition serve (a : Answer) : Server := fun T sh _ _ => a T sh.

(** A success response carrying the parsed body [v]. *)
Definition ok_json {T : Type} (v : T) : Settled (Response T) :=
  Fulfilled {| ok := true; text := []; json := Fulfilled v |}.

(** A non-success response with the given body text. *)
Definition refusal {T : Type} (body : str) : Settled (Response T) :=
  Fulfilled {| ok := false; text := body;
               json := Rejected (new_Error (lit "Unexpected token")) |}.

(** The network is down: every [fetch] rejects. *)
Definition offline : Answer :=
  fun T _ => Rejected (new_Error (lit "Failed to fetch")).

(** No current document: the server refuses with a body text. *)
Definition no_document : Answer :=
  fun T _ => refusal (lit "No current document").

Definition notes_doc : UploadResponse.t := {|
  UploadResponse.document_id := lit "d1";
  UploadResponse.file_name := lit "notes.txt";
  UploadResponse.num_chars := 3600%Z;
  UploadResponse.num_chunks := 5%Z;
  UploadResponse.encoder_name := lit "mini";
  UploadResponse.chunk_size := 800%Z;
  UploadResponse.chunk_overlap := 200%Z
|}.

Definition notes_chunks : list ChunkSummary.t :=
  [ {| ChunkSummary.chunk_id := 0%Z; ChunkSummary.text := lit "alpha" |};
    {| ChunkSummary.chunk_id := 1%Z; ChunkSummary.text := lit "beta" |} ].

Definition hello_results : list SearchResult.t :=
  [ {| SearchResult.chunk_id := 2%Z; SearchResult.score := 0.5%float;
       SearchResult.text := lit "hello there" |};
    {| SearchResult.chunk_id := 0%Z; SearchResult.score := 0.25%float;
       SearchResult.text := lit "alpha" |} ].

Definition notes_entry : StorageEntry.t := {|
  StorageEntry.file_name := lit "notes.txt";
  StorageEntry.size_bytes := 3600%Z;
  StorageEntry.modified_at := lit "2024-01-01T00:00:00"
|}.

Definition notes_file : File :=
  {| file_label := lit "notes.txt"; file_bytes := [] |}.

(** Every endpoint answers with success. *)
Definition healthy : Answer :=
  fun T sh =>
    match sh in Shape T return Settled (Response T) with
    | AsUploadResponse => ok_json notes_doc
    | AsCurrentDocumentResponse => ok_json notes_doc
    | AsChunkSummaries => ok_json notes_chunks
    | AsSearchResponse => ok_json {| SearchResponse.results := hello_results |}
    | AsStorageEntries => ok_json [notes_entry]
    | AsStorageUploadResponse =>
        ok_json {| StorageUploadResponse.file_name := lit "notes.txt";
                   StorageUploadResponse.size_bytes := 3600%Z;
                   StorageUploadResponse.stored := true |}
    end.

(** As [healthy], but the chunk list cannot be fetched. *)
Definition chunks_unavailable : Answer :=
  fun T sh =>
    match sh in Shape T return Settled (Response T) with
    | AsChunkSummaries => refusal (lit "chunks unavailable")
    | sh' => healthy sh'
    end.

(** A view that holds a document, its chunks, a storage list and results. *)
Definition loaded_view : View := {|
  encoderName := mini;
  chunkSize := 800%Z;
  chunkOverlap := 200%Z;
  currentDoc := Some notes_doc;
  chunks := notes_chunks;
  storage := [notes_entry];
  query := lit "hello";
  topK := 3%Z;
  searchResults := hello_results;
  status := current_document_line notes_doc;
  isLoading := false
|}.

Definition start_world (v : View) : World := {| view := v; sent := [] |}.

(** The page after a sequence of events (unchanged when one of them
    cannot happen). *)
Definition after_events (es : list Event) (p : Page) : Page :=
  match steps es p with
  | Some p' => p'
  | None => p
  end.

(** The page is mounted, the storage list has arrived, and "make current"
    has been clicked once: its request is in flight. *)
Definition loading_page : Page :=
  after_events
    [ Settle 0 healthy; Click (MakeCurrentButton (lit "notes.txt")) ]
    (mount first_render).

(** A [fetch(url)] without options. *)
Definition get (path : string) : Request :=
  {| url := API_BASE ++ lit path; method := GET; headers := []; body := NoBody |}.

(** What an API call returns when its request is answered by [a]. *)
Definition api_outcome {T : Type} (a : Answer) (c : ApiCall T) : Settled T :=
  fst (run (serve a) (api c) (start_world initial_view)).

(** A handler suspended at its first [await]. *)
Definition parked (t : Handler) : option Pending :=
  match t with
  | Await sh req k => Some (Waiting sh req k)
  | _ => None
  end.

(** The answer a scripted server gives to request [req] sent as the
    [n]-th. *)
Definition answer_of (srv : Server) (req : Request) (n : nat) : Answer :=
  fun T sh => srv T sh req n.

(** What the view shows after a sequence of events on the freshly mounted
    page. *)
Definition observe {A : Type} (f : View -> A) (es : list Event) : option A :=
  option_map (fun p => f (ui p)) (steps es (mount first_render)).

(** The storage list, the current document and its chunks arrive, in this
    order. *)
Definition document_loaded : list Event :=
  [ Settle 0 healthy; Settle 0 healthy; Settle 0 healthy ].

(** On every path of the handler, the last thing done to the busy flag
    before the end, and after the last [await], is to lower it ([lowered]
    tells whether that has happened since the last [await]). *)
Fixpoint lowers_flag (lowered : bool) (t : Handler) : Prop :=
  match t with
  | Return _ => lowered = true
  | Throw _ => lowered = true
  | Do u k =>
      lowers_flag (match u with setIsLoading b => negb b | _ => lowered end) k
  | Await _ _ k => forall r, lowers_flag false (k r)
  end.

(** A request in flight whose handler will lower the busy flag. *)
Definition flag_lowering (w : Pending) : Prop :=
  match w with
  | Waiting _ _ k => forall r, lowers_flag false (k r)
  end.

(** A task that never calls [setIsLoading]. *)
Fixpoint keeps_flag {A : Type} (t : Task Update A) : Prop :=
  match t with
  | Return _ => True
  | Throw _ => True
  | Do u k =>
      match u with
      | setIsLoading _ => False
      | _ => keeps_flag k
      end
  | Await _ _ k => forall r, keeps_flag (k r)
  end.

(** A handler that calls [setIsLoading] once on every path, with [false],
    as the last thing it does: it ends there. *)
Fixpoint lowers_flag_last (t : Handler) : Prop :=
  match t with
  | Return _ => False
  | Throw _ => False
  | Do u k =>
      match u with
      | setIsLoading b =>
          b = false /\
          match k with
          | Return _ => True
          | Throw _ => True
          | _ => False
          end
      | _ => lowers_flag_last k
      end
  | Await _ _ k => forall r, lowers_flag_last (k r)
  end.

(** A request in flight whose handler will never touch the busy flag, and
    one whose handler will touch it once, to lower it as it ends. *)
Definition flag_keeping (w : Pending) : Prop :=
  match w with
  | Waiting _ _ k => forall r, keeps_flag (k r)
  end.

Definition flag_holding (w : Pending) : Prop :=
  match w with
  | Waiting _ _ k => forall r, lowers_flag_last (k r)
  end.

(** The flag follows the requests in flight of a page: each of them is of
    one of the two kinds and, while the flag is set, one of them holds
    it. *)
Definition flag_follows_requests (p : Page) : Prop :=
  Forall (fun w => flag_keeping w \/ flag_holding w) (inflight p) /\
  (isLoading (ui p) = true -> Exists flag_holding (inflight p)).

(** The address of a request in flight. *)
Definition awaited_url (w : Pending) : str :=
  match w with
  | Waiting _ req _ => url req
  end.

(** The addresses of the requests in flight and the busy flag after a
    sequence of events on the freshly mounted page. *)
Definition in_flight (es : list Event) : option (list str * bool) :=
  option_map (fun p => (map awaited_url (inflight p), isLoading (ui p)))
    (steps es (mount first_render)).

(* ----------------------------------------------------------------- *)
(** *** More of the two sources *)

(** The request each API function hands to [fetch]: the table of
    endpoints. *)
Definition request_of {T : Type} (c : ApiCall T) : Request :=
  match c with
  | call_uploadAndIndexDocument formData =>
      {| url := lit "http://localhost:8000/api/upload"; method := POST;
         headers := []; body := FormBody formData |}
  | call_getCurrentDocument =>
      {| url := lit "http://localhost:8000/api/document/current"; method := GET;
         headers := []; body := NoBody |}
  | call_getCurrentChunks =>
      {| url := lit "http://localhost:8000/api/document/current/chunks";
         method := GET; headers := []; body := NoBody |}
  | call_searchInDocument query topK =>
      {| url := lit "http://localhost:8000/api/search"; method := POST;
         headers := [(lit "Content-Type", lit "application/json")];
         body := JSON_stringify [(lit "query", JString query);
                                 (lit "top_k", JNumber topK)] |}
  | call_listStorageDocuments =>
      {| url := lit "http://localhost:8000/api/storage/list"; method := GET;
         headers := []; body := NoBody |}
  | call_uploadToStorage formData =>
      {| url := lit "http://localhost:8000/api/storage/upload"; method := POST;
         headers := []; body := FormBody formData |}
  | call_loadFromStorage params =>
      {| url := lit "http://localhost:8000/api/storage/load"; method := POST;
         headers := [(lit "Content-Type", lit "application/json")];
         body := JSON_stringify
                   [(lit "file_name", JString (LoadParams.file_name params));
                    (lit "encoder_name", JString (LoadParams.encoder_name params));
                    (lit "chunk_size", JNumber (LoadParams.chunk_size params));
                    (lit "chunk_overlap", JNumber (LoadParams.chunk_overlap params))] |}
  end.

(** The [async] functions of the component, each with what it is called
    with; [mount_document] is the chain
    [refreshCurrentDocument().then(() => refreshChunks())] of the mount
    effect. *)
Inductive Async : Type :=
| async_refreshStorage
| async_refreshCurrentDocument
| async_refreshChunks
| async_mount_document
| async_handleDrop (e : DragEvent)
| async_handleUploadAndIndex (uploadInputRef : option HTMLInputElement) (s : View)
| async_handleSearch (s : View)
| async_storage_input_onchange (input : HTMLInputElement)
| async_handleMakeCurrent (s : View) (fileName : str).

Definition handler_of (f : Async) : Handler :=
  match f with
  | async_refreshStorage => refreshStorage
  | async_refreshCurrentDocument => refreshCurrentDocument
  | async_refreshChunks => refreshChunks
  | async_mount_document => refreshCurrentDocument ;; refreshChunks
  | async_handleDrop e => handleDrop e
  | async_handleUploadAndIndex uploadInputRef s =>
      handleUploadAndIndex uploadInputRef s
  | async_handleSearch s => handleSearch s
  | async_storage_input_onchange input => storage_input_onchange input
  | async_handleMakeCurrent s fileName => handleMakeCurrent s fileName
  end.

(** The text of the document card (lines 274 to 278 of App.tsx):
    [currentDoc ? `Текущий документ: ...` : 'Документ не загружен']. *)
Definition document_card (s : View) : str :=
  match currentDoc s with
  | Some doc =>
      lit "Текущий документ: " ++ UploadResponse.file_name doc
        ++ lit ", чанков: " ++ String_ (UploadResponse.num_chunks doc)
        ++ lit ", модель: " ++ UploadResponse.encoder_name doc
  | None => lit "Документ не загружен"
  end.

(** [Math.round(doc.size_bytes / 1024)] of a storage entry (line 234).  For
    an integral size below 2^53 the quotient by 1024 and its sum with one
    half are exact in binary64, and [Math.round] is the floor of that sum
    (ties go up), hence this integer. *)
Definition size_kb (size_bytes : number) : number := ((size_bytes + 512) / 1024)%Z.

(** The request at which a started handler is first suspended, after the
    setter calls in front of it. *)
Fixpoint first_await (t : Handler) : option Pending :=
  match t with
  | Do _ k => first_await k
  | Await sh req k => Some (Waiting sh req k)
  | _ => None
  end.

(** A second document and server answers that carry a chosen descriptor or
    chunk list. *)
Definition draft_doc : UploadResponse.t := {|
  UploadResponse.document_id := lit "d2";
  UploadResponse.file_name := lit "draft.txt";
  UploadResponse.num_chars := 900%Z;
  UploadResponse.num_chunks := 2%Z;
  UploadResponse.encoder_name := lit "mini";
  UploadResponse.chunk_size := 800%Z;
  UploadResponse.chunk_overlap := 200%Z
|}.

Definition draft_entry : StorageEntry.t := {|
  StorageEntry.file_name := lit "draft.txt";
  StorageEntry.size_bytes := 900%Z;
  StorageEntry.modified_at := lit "2024-01-02T00:00:00"
|}.

Definition draft_chunks : list ChunkSummary.t :=
  [ {| ChunkSummary.chunk_id := 0%Z; ChunkSummary.text := lit "gamma" |} ].

Definition serving (doc : UploadResponse.t) (its_chunks : list ChunkSummary.t)
  : Answer :=
  fun T sh =>
    match sh in Shape T return Settled (Response T) with
    | AsUploadResponse => ok_json doc
    | AsCurrentDocumentResponse => ok_json doc
    | AsChunkSummaries => ok_json its_chunks
    | AsStorageEntries => ok_json [notes_entry; draft_entry]
    | sh' => healthy sh'
    end.

(** As [healthy], but the storage list cannot be fetched. *)
Definition list_unavailable : Answer :=
  fun T sh =>
    match sh in Shape T return Settled (Response T) with
    | AsStorageEntries => refusal (lit "list unavailable")
    | sh' => healthy sh'
    end.

(** The page is mounted, the storage list has arrived with two entries and
    there is no current document. *)
Definition listed_page : Page :=
  after_events
    [ Settle 0 (serving notes_doc notes_chunks); Settle 0 no_document;
      Settle 0 no_document ]
    (mount first_render).

(** "Make current" has then been clicked for notes.txt and, before any
    answer, for draft.txt. *)
Definition two_loads_page : Page :=
  after_events
    [ Click (MakeCurrentButton (lit "notes.txt"));
      Click (MakeCurrentButton (lit "draft.txt")) ]
    listed_page.

(** The orders in which the answers to the three requests of the mount
    effect can arrive: the storage list ([a0]) before, between or after the
    current document ([a]) and its chunks ([b]). *)
Definition mount_arrivals (a0 a b : Answer) : list (list Event) :=
  [ [ Settle 0 a0; Settle 0 a; Settle 0 b ];
    [ Settle 1 a; Settle 0 a0; Settle 0 b ];
    [ Settle 1 a; Settle 1 b; Settle 0 a0 ] ].

(* ================================================================= *)
(** ** Properties *)

(* ----------------------------------------------------------------- *)
(** *** General facts about tasks *)

Lemma run_bind {A B : Type} (srv : Server) (t : Task Update A)
  (f : A -> Task Update B) (w : World) :
  run srv (bind t f) w =
  match run srv t w with
  | (Fulfilled a, w') => run srv (f a) w'
  | (Rejected e, w') => (Rejected e, w')
  end.
Proof.
  revert w. induction t as [a | e | u k IH | T sh req k IH]; intros w; simpl.
  - reflexivity.
  - reflexivity.
  - apply IH.
  - apply IH.
Qed.

Lemma run_try_catch {A : Type} (srv : Server) (t : Task Update A)
  (h : Error -> Task Update A) (w : World) :
  run srv (try_catch t h) w =
  match run srv t w with
  | (Fulfilled a, w') => (Fulfilled a, w')
  | (Rejected e, w') => run srv (h e) w'
  end.
Proof.
  revert w. induction t as [a | e | u k IH | T sh req k IH]; intros w; simpl;
    auto.
Qed.

Lemma run_finally {A : Type} (srv : Server) (t : Task Update A)
  (f : Task Update unit) (w : World) :
  run srv (finally t f) w =
  match run srv t w with
  | (Fulfilled a, w') =>
      match run srv f w' with
      | (Fulfilled _, w'') => (Fulfilled a, w'')
      | (Rejected e, w'') => (Rejected e, w'')
      end
  | (Rejected e, w') =>
      match run srv f w' with
      | (Fulfilled _, w'') => (Rejected e, w'')
      | (Rejected e', w'') => (Rejected e', w'')
      end
  end.
Proof.
  revert w. induction t as [a | e | u k IH | T sh req k IH]; intros w; simpl;
    auto.
  - rewrite run_bind. destruct (run srv f w) as [[x | e] w']; reflexivity.
  - rewrite run_bind. destruct (run srv f w) as [[x | e'] w']; reflexivity.
Qed.

(** Answering a request in flight resumes its handler. *)
Lemma step_Settle (i : nat) (a : Answer) (p : Page) (w : Pending) :
  nth_error (inflight p) i = Some w ->
  step (Settle i a) p = Some (advance (resume a w) (settled i p)).
Proof. intros Hw. simpl. rewrite Hw. reflexivity. Qed.

(** The common body of the seven API functions. *)
Lemma run_fetch_handle {T : Type} (sh : Shape T) (req : Request)
  (srv : Server) (w : World) :
  run srv (res <- fetch sh req ;; handleResponse res) w =
  (match srv T sh req (List.length (sent w)) with
   | Rejected e => Rejected e
   | Fulfilled r =>
       if ok r then json r
       else Rejected (new_Error (or_else (text r) (lit "Ошибка запроса")))
   end,
   {| view := view w; sent := sent w ++ [req] |}).
Proof.
  simpl. destruct (srv T sh req _) as [r | e]; simpl; [ | reflexivity ].
  unfold handleResponse. destruct (ok r); simpl; [ | reflexivity ].
  destruct (json r); reflexivity.
Qed.

(** What an API call makes of the way its [fetch] settled: it sends one
    request, which depends on the call alone, and leaves the view as it
    is. *)
Lemma run_api {T : Type} (c : ApiCall T) :
  exists req, forall (srv : Server) (w : World),
    run srv (api c) w =
    (match srv T (shape_of c) req (List.length (sent w)) with
     | Rejected e => Rejected e
     | Fulfilled r =>
         if ok r then json r
         else Rejected (new_Error (or_else (text r) (lit "Ошибка запроса")))
     end,
     {| view := view w; sent := sent w ++ [req] |}).
Proof.
  destruct c; eexists; intros srv w; apply run_fetch_handle.
Qed.

(** An API call and a setter call commute. *)
Lemma run_api_after {T : Type} (c : ApiCall T) (srv : Server) (u : Update)
  (w : World) :
  run srv (api c) (after u w) =
  (fst (run srv (api c) w), after u (snd (run srv (api c) w))).
Proof.
  destruct (run_api c) as [req Hrun]. rewrite !Hrun. reflexivity.
Qed.

(* ----------------------------------------------------------------- *)
(** *** The handlers, run alone *)

(** A setter call in front of the rest of a handler. *)
Lemma run_call {A : Type} (srv : Server) (u : Update) (k : Task Update A)
  (w : World) :
  run srv (call u ;; k) w = run srv k (after u w).
Proof. reflexivity. Qed.

Lemma run_call_last (srv : Server) (u : Update) (w : World) :
  run srv (call u) w = (Fulfilled tt, after u w).
Proof. reflexivity. Qed.

Ltac run_handler :=
  repeat first
    [ rewrite run_call | rewrite run_call_last
    | rewrite run_finally | rewrite run_try_catch | rewrite run_bind ].

Lemma run_refreshStorage (srv : Server) (w : World) :
  run srv refreshStorage w =
  match run srv listStorageDocuments w with
  | (Fulfilled list, w') => (Fulfilled tt, after (setStorage list) w')
  | (Rejected err, w') =>
      (Fulfilled tt, after (setStatus (lit "Ошибка: " ++ message err)) w')
  end.
Proof.
  unfold refreshStorage. run_handler.
  destruct (run srv listStorageDocuments w) as [[list | err] w']; reflexivity.
Qed.

Lemma run_refreshCurrentDocument (srv : Server) (w : World) :
  run srv refreshCurrentDocument w =
  match run srv getCurrentDocument w with
  | (Fulfilled info, w') =>
      (Fulfilled tt,
       after (setStatus (current_document_line info))
         (after (setCurrentDoc (Some info)) w'))
  | (Rejected err, w') =>
      (Fulfilled tt,
       after (setStatus (lit "Документ не загружен"))
         (after (setCurrentDoc None) w'))
  end.
Proof.
  unfold refreshCurrentDocument. run_handler.
  destruct (run srv getCurrentDocument w) as [[info | err] w']; reflexivity.
Qed.

Lemma run_refreshChunks (srv : Server) (w : World) :
  run srv refreshChunks w =
  match run srv getCurrentChunks w with
  | (Fulfilled data, w') => (Fulfilled tt, after (setChunks data) w')
  | (Rejected err, w') =>
      (Fulfilled tt,
       after (setStatus (lit "Нет документа или не удалось загрузить чанки"))
         (after (setChunks []) w'))
  end.
Proof.
  unfold refreshChunks. run_handler.
  destruct (run srv getCurrentChunks w) as [[data | err] w']; reflexivity.
Qed.

Lemma run_handleUploadAndIndex (uploadInputRef : option HTMLInputElement)
  (s : View) (srv : Server) (w : World) (file : File) :
  chosen_file uploadInputRef = Some file ->
  run srv (handleUploadAndIndex uploadInputRef s) w =
  match run srv (uploadAndIndexDocument (upload_form file s))
          (after (setStatus (lit "Загрузка и индексация..."))
             (after (setIsLoading true) w)) with
  | (Fulfilled resp, w') => (Fulfilled tt, adopt srv resp w')
  | (Rejected err, w') => (Fulfilled tt, report_failure err w')
  end.
Proof.
  intros Hfile. unfold handleUploadAndIndex. rewrite Hfile.
  unfold try_catch_finally.
  change (append _ _ _) with (upload_form file s).
  rewrite !run_call, run_finally, run_try_catch, run_bind.
  destruct (run srv (uploadAndIndexDocument (upload_form file s)) _)
    as [[resp | err] w']; [ | reflexivity ].
  rewrite run_call, run_bind. unfold adopt.
  rewrite run_refreshChunks.
  destruct (run srv getCurrentChunks _) as [[data | e] w'']; reflexivity.
Qed.

Lemma run_handleMakeCurrent (s : View) (fileName : str) (srv : Server)
  (w : World) :
  run srv (handleMakeCurrent s fileName) w =
  match run srv (loadFromStorage (load_params fileName s))
          (after (setStatus (lit "Загрузка из хранилища..."))
             (after (setIsLoading true) w)) with
  | (Fulfilled resp, w') => (Fulfilled tt, adopt srv resp w')
  | (Rejected err, w') => (Fulfilled tt, report_failure err w')
  end.
Proof.
  unfold handleMakeCurrent, try_catch_finally.
  fold (load_params fileName s).
  rewrite !run_call, run_finally, run_try_catch, run_bind.
  destruct (run srv (loadFromStorage _) _) as [[resp | err] w']; [ | reflexivity ].
  rewrite run_call, run_bind. unfold adopt.
  rewrite run_refreshChunks.
  destruct (run srv getCurrentChunks _) as [[data | e] w'']; reflexivity.
Qed.

Lemma run_handleSearch (s : View) (srv : Server) (w : World) :
  truthy (trim (query s)) = true ->
  run srv (handleSearch s) w =
  match run srv (searchInDocument (query s) (topK s))
          (after (setStatus (lit "Идёт поиск..."))
             (after (setIsLoading true) w)) with
  | (Fulfilled res, w') =>
      (Fulfilled tt,
       after (setIsLoading false)
         (after (setStatus
                   (lit "Найдено результатов: "
                      ++ String_ (Z.of_nat (List.length (SearchResponse.results res)))))
            (after (setSearchResults (SearchResponse.results res)) w')))
  | (Rejected err, w') =>
      (Fulfilled tt,
       after (setIsLoading false)
         (after (setSearchResults [])
            (after (setStatus (lit "Ошибка: " ++ message err)) w')))
  end.
Proof.
  intros Hquery. unfold handleSearch, try_catch_finally. rewrite Hquery.
  cbv beta iota delta [negb].
  rewrite !run_call, run_finally, run_try_catch, run_bind.
  destruct (run srv (searchInDocument _ _) _) as [[res | err] w']; reflexivity.
Qed.

Lemma run_handleSearch_blank (s : View) (srv : Server) (w : World) :
  truthy (trim (query s)) = false ->
  run srv (handleSearch s) w =
  (Fulfilled tt, after (setStatus (lit "Введите запрос для поиска")) w).
Proof.
  intros Hquery. unfold handleSearch. rewrite Hquery. reflexivity.
Qed.

Lemma run_storage_input_onchange (input : HTMLInputElement) (file : File)
  (srv : Server) (w : World) :
  chosen_file (Some input) = Some file ->
  run srv (storage_input_onchange input) w =
  match run srv (uploadToStorage [(lit "file", FileValue file)])
          (after (setStatus (lit "Загрузка файла в хранилище...")) w) with
  | (Fulfilled _, w') =>
      (Fulfilled tt,
       after (setStatus (lit "Файл добавлен в хранилище"))
         (snd (run srv refreshStorage w')))
  | (Rejected err, w') =>
      (Fulfilled tt, after (setStatus (lit "Ошибка: " ++ message err)) w')
  end.
Proof.
  intros Hfile. unfold storage_input_onchange. rewrite Hfile.
  change (append _ _ _) with [(lit "file", FileValue file)].
  rewrite run_call, run_try_catch, run_bind.
  destruct (run srv (uploadToStorage _) _) as [[stored | err] w']; [ | reflexivity ].
  rewrite run_bind, run_refreshStorage.
  destruct (run srv listStorageDocuments _) as [[list | e] w'']; reflexivity.
Qed.

Lemma run_handleDrop (e : DragEvent) (files : list File) (file : File)
  (srv : Server) (w : World) :
  dataTransfer e = Some files ->
  nth_error files 0 = Some file ->
  run srv (handleDrop e) w =
  match run srv (uploadToStorage [(lit "file", FileValue file)])
          (after (setStatus (lit "Загрузка файла в хранилище...")) w) with
  | (Fulfilled _, w') =>
      (Fulfilled tt,
       snd (run srv refreshStorage
              (after (setStatus (lit "Файл добавлен в хранилище")) w')))
  | (Rejected err, w') =>
      (Fulfilled tt, after (setStatus (lit "Ошибка: " ++ message err)) w')
  end.
Proof.
  intros Hdata Hfile. unfold handleDrop. rewrite Hdata, Hfile.
  change (append _ _ _) with [(lit "file", FileValue file)].
  rewrite run_call, run_try_catch, run_bind.
  destruct (run srv (uploadToStorage _) _) as [[stored | err] w']; [ | reflexivity ].
  rewrite run_call, run_refreshStorage.
  destruct (run srv listStorageDocuments _) as [[list | e'] w'']; reflexivity.
Qed.

(* ----------------------------------------------------------------- *)
(** *** The API client *)

(** C1. For every API client function and every response: on a
    non-success status the call throws an error whose message is the response
    body text when that text is non-empty and the fixed fallback string
    otherwise; on a success status the call settles as the parse of the JSON
    body does, returning the parsed body unchanged. *)
Theorem api_response_rule (T : Type) (c : ApiCall T) (srv : Server) (w : World)
  (r : Response T) :
  answers srv (shape_of c) (Fulfilled r) ->
  response_rule r (fst (run srv (api c) w)).
Proof.
  intros Hsrv. destruct (run_api c) as [req Hrun].
  rewrite Hrun, (Hsrv req). simpl. unfold response_rule.
  destruct (ok r); [ reflexivity | ].
  eexists. split; [ reflexivity | ]. simpl. unfold or_else.
  split; intros Htext.
  - destruct (text r); [ congruence | reflexivity ].
  - rewrite Htext. reflexivity.
Qed.

Lemma api_response_rule_witness :
  answers (serve no_document) (shape_of call_getCurrentDocument)
    (refusal (lit "No current document")) /\
  response_rule
    {| ok := false; text := lit "No current document";
       json := Rejected (new_Error (lit "Unexpected token")) |}
    (fst (run (serve no_document) (api call_getCurrentDocument)
            (start_world initial_view))).
Proof.
  split.
  - intros req n. reflexivity.
  - apply (@api_response_rule _ call_getCurrentDocument (serve no_document)).
    intros req n. reflexivity.
Defined.

Example refusal_with_text :
  fst (run (serve no_document) getCurrentChunks (start_world initial_view))
  = Rejected (new_Error (lit "No current document")).
Proof. vm_compute. reflexivity. Qed.

Example refusal_without_text :
  fst (run (serve (fun T _ => refusal [])) listStorageDocuments
         (start_world initial_view))
  = Rejected (new_Error (lit "Ошибка запроса")).
Proof. vm_compute. reflexivity. Qed.

Example success_returns_body :
  fst (run (serve healthy) getCurrentDocument (start_world initial_view))
  = Fulfilled notes_doc.
Proof. reflexivity. Qed.

(** C6. For every query and topK, [searchInDocument] issues exactly one
    request: a POST to the /api/search endpoint of the base address, with
    the JSON content type and the body [{query, top_k: topK}]; when that
    request is answered with a success status and a body that parses, the
    call returns the parsed body, and with it the results collection of the
    response. *)
Theorem searchInDocument_request (query : str) (topK : number)
  (srv : Server) (w : World) :
  let req := {| url := lit "http://localhost:8000/api/search";
                method := POST;
                headers := [(lit "Content-Type", lit "application/json")];
                body := JSON_stringify [(lit "query", JString query);
                                        (lit "top_k", JNumber topK)] |} in
  let out := run srv (searchInDocument query topK) w in
  sent (snd out) = sent w ++ [req] /\
  view (snd out) = view w /\
  forall (r : Response SearchResponse.t) (found : SearchResponse.t),
    srv _ AsSearchResponse req (List.length (sent w)) = Fulfilled r ->
    ok r = true ->
    json r = Fulfilled found ->
    fst out = Fulfilled found /\
    (forall res, fst out = Fulfilled res ->
                 SearchResponse.results res = SearchResponse.results found).
Proof.
  intros req out. subst out. unfold searchInDocument.
  rewrite run_fetch_handle.
  change (API_BASE ++ lit "/api/search") with (url req).
  change {| url := url req; method := POST;
            headers := [(lit "Content-Type", lit "application/json")];
            body := JSON_stringify [(lit "query", JString query);
                                    (lit "top_k", JNumber topK)] |} with req.
  simpl. repeat split.
  - rewrite H, H0, H1. reflexivity.
  - intros res. rewrite H, H0, H1. intros E. inversion E. reflexivity.
Qed.

Lemma searchInDocument_request_witness :
  fst (run (serve healthy) (searchInDocument (lit "hello") 3%Z)
         (start_world initial_view))
  = Fulfilled {| SearchResponse.results := hello_results |}.
Proof.
  destruct (searchInDocument_request (lit "hello") 3%Z (serve healthy)
              (start_world initial_view)) as (_ & _ & Hsuccess).
  apply (Hsuccess {| ok := true; text := [];
                     json := Fulfilled {| SearchResponse.results := hello_results |} |});
    reflexivity.
Defined.

(* ----------------------------------------------------------------- *)
(** *** Search *)

Lemma isWhiteSpace_In (c : N) : In c white_space -> isWhiteSpace c = true.
Proof.
  intros Hc. unfold isWhiteSpace. apply existsb_exists.
  exists c. split; [ exact Hc | apply N.eqb_refl ].
Qed.

Lemma In_isWhiteSpace (c : N) : isWhiteSpace c = true -> In c white_space.
Proof.
  unfold isWhiteSpace. intros Hc. apply existsb_exists in Hc.
  destruct Hc as (c' & Hin & Heq). apply N.eqb_eq in Heq. subst c'. exact Hin.
Qed.

(** [blank] is decided by testing every code unit. *)
Lemma blank_forallb (q : str) : forallb isWhiteSpace q = true <-> blank q.
Proof.
  unfold blank. rewrite forallb_forall, Forall_forall.
  split; intros H c Hc.
  - apply In_isWhiteSpace, H, Hc.
  - apply isWhiteSpace_In, H, Hc.
Qed.

Lemma trimStart_blank (q : str) : blank q -> trimStart q = [].
Proof.
  induction 1 as [ | c q Hc _ IH]; simpl.
  - reflexivity.
  - rewrite (isWhiteSpace_In Hc). exact IH.
Qed.

Lemma trim_blank (q : str) : blank q -> trim q = [].
Proof.
  intros Hq. unfold trim. rewrite (trimStart_blank Hq). reflexivity.
Qed.

Lemma blank_app (a b : str) : blank a -> blank b -> blank (a ++ b).
Proof. unfold blank. intros Ha Hb. apply Forall_app. split; assumption. Qed.

Lemma blank_rev (q : str) : blank (rev q) -> blank q.
Proof.
  unfold blank. rewrite !Forall_forall. intros H c Hc.
  apply H. apply in_rev. rewrite rev_involutive. exact Hc.
Qed.

(** [trimStart] removes a blank prefix. *)
Lemma trimStart_prefix (q : str) :
  exists pre, blank pre /\ q = pre ++ trimStart q.
Proof.
  induction q as [ | c q (pre & Hpre & Hq)]; simpl.
  - exists []. split; [ constructor | reflexivity ].
  - destruct (isWhiteSpace c) eqn:Hc.
    + exists (c :: pre). split.
      * constructor; [ apply In_isWhiteSpace, Hc | exact Hpre ].
      * simpl. rewrite <- Hq. reflexivity.
    + exists []. split; [ constructor | reflexivity ].
Qed.

Lemma trimStart_empty (q : str) : trimStart q = [] -> blank q.
Proof.
  intros Hq. destruct (trimStart_prefix q) as (pre & Hpre & Heq).
  rewrite Hq, app_nil_r in Heq. subst q. exact Hpre.
Qed.

(** The guard of [handleSearch] stops exactly the blank queries. *)
Lemma guard_blank (q : str) : truthy (trim q) = false <-> blank q.
Proof.
  split.
  - intros Hguard.
    assert (Htrim : trim q = []) by (destruct (trim q); [ reflexivity | discriminate ]).
    unfold trim, trimEnd in Htrim.
    assert (Hrev : trimStart (rev (trimStart q)) = []).
    { rewrite <- (rev_involutive (trimStart _)), Htrim. reflexivity. }
    apply trimStart_empty, blank_rev in Hrev.
    destruct (trimStart_prefix q) as (pre & Hpre & Heq).
    rewrite Heq. apply blank_app; assumption.
  - intros Hblank. rewrite (trim_blank Hblank). reflexivity.
Qed.

Lemma guard_not_blank (q : str) : ~ blank q -> truthy (trim q) = true.
Proof.
  intros Hq. destruct (truthy (trim q)) eqn:Hguard; [ reflexivity | ].
  exfalso. apply Hq, guard_blank, Hguard.
Qed.

(** C5. For every query that is empty or consists only of white space,
    the search handler is the single call that sets the prompt status: run
    alone it sends no request and changes nothing but the status, and on the
    page a click adds no request to those issued or in flight. *)
Theorem blank_query_sends_nothing (s : View) :
  blank (query s) ->
  handleSearch s = call (setStatus (lit "Введите запрос для поиска")) /\
  (forall (srv : Server) (w : World),
     run srv (handleSearch s) w =
     (Fulfilled tt, after (setStatus (lit "Введите запрос для поиска")) w) /\
     sent (snd (run srv (handleSearch s) w)) = sent w) /\
  (forall p : Page,
     issued (advance (handleSearch s) p) = issued p /\
     inflight (advance (handleSearch s) p) = inflight p /\
     ui (advance (handleSearch s) p)
       = apply (setStatus (lit "Введите запрос для поиска")) (ui p)).
Proof.
  intros Hblank.
  assert (Hs : handleSearch s = call (setStatus (lit "Введите запрос для поиска"))).
  { unfold handleSearch. rewrite (trim_blank Hblank). reflexivity. }
  rewrite Hs. split; [ reflexivity | ].
  split; [ intros srv w | intros p ]; repeat split; reflexivity.
Qed.

Lemma blank_query_sends_nothing_witness :
  blank (lit "  ") /\
  handleSearch (apply (setQuery (lit "  ")) initial_view)
    = call (setStatus (lit "Введите запрос для поиска")).
Proof.
  assert (Hblank : blank (query (apply (setQuery (lit "  ")) initial_view))).
  { apply blank_forallb. reflexivity. }
  split; [ exact Hblank | ].
  exact (proj1 (blank_query_sends_nothing
                  (apply (setQuery (lit "  ")) initial_view) Hblank)).
Defined.

(** C7. For every search that succeeds (the query is not blank and the
    search call returns a response), the handler leaves the search results
    equal to the results of the response, whatever they were before, and a
    status that reports the length of that list. *)
Theorem successful_search_replaces_results (s : View) (srv : Server)
  (w : World) (res : SearchResponse.t) :
  ~ blank (query s) ->
  fst (run srv (searchInDocument (query s) (topK s)) w) = Fulfilled res ->
  let w' := snd (run srv (handleSearch s) w) in
  searchResults (view w') = SearchResponse.results res /\
  status (view w')
    = lit "Найдено результатов: "
        ++ String_ (Z.of_nat (List.length (SearchResponse.results res))).
Proof.
  intros Hquery Hcall w'. subst w'.
  rewrite (run_handleSearch _ _ _ (guard_not_blank Hquery)).
  change (searchInDocument (query s) (topK s))
    with (api (call_searchInDocument (query s) (topK s))) in *.
  rewrite !run_api_after, Hcall. split; reflexivity.
Qed.

Lemma successful_search_replaces_results_witness :
  let s := apply (setQuery (lit "hello")) initial_view in
  let w' := snd (run (serve healthy) (handleSearch s) (start_world s)) in
  searchResults s = [] /\
  searchResults (view w') = hello_results /\
  status (view w') = lit "Найдено результатов: 2".
Proof.
  split; [ reflexivity | ].
  apply (@successful_search_replaces_results
           (apply (setQuery (lit "hello")) initial_view) (serve healthy)
           (start_world (apply (setQuery (lit "hello")) initial_view))
           {| SearchResponse.results := hello_results |}).
  - intros Hblank. apply guard_blank in Hblank. discriminate Hblank.
  - reflexivity.
Defined.

(* ----------------------------------------------------------------- *)
(** *** Upload-and-index and make-current *)

(** The world once a descriptor has been adopted: the view holds it, the
    chunk request has been sent after the requests of [w], and the status
    names the document. *)
Lemma adopt_spec (srv : Server) (resp : UploadResponse.t) (w : World) :
  currentDoc (view (adopt srv resp w)) = Some resp /\
  chunks (view (adopt srv resp w))
    = refreshed_chunks (fst (run srv getCurrentChunks w)) /\
  status (view (adopt srv resp w)) = current_document_line resp /\
  isLoading (view (adopt srv resp w)) = false /\
  storage (view (adopt srv resp w)) = storage (view w) /\
  searchResults (view (adopt srv resp w)) = searchResults (view w) /\
  sent (adopt srv resp w) = sent (snd (run srv getCurrentChunks w)).
Proof.
  unfold adopt. rewrite run_refreshChunks.
  change getCurrentChunks with (api call_getCurrentChunks).
  rewrite run_api_after.
  destruct (run_api call_getCurrentChunks) as [req Hrun]. rewrite Hrun.
  destruct (srv _ _ _ _) as [r | e]; [ destruct (ok r); [ destruct (json r) | ] | ];
    simpl; repeat split; reflexivity.
Qed.

(** C2. For every upload-and-index call that succeeds, the handler leaves
    the returned descriptor as the current document, whatever document was
    held before, and the chunk list refreshed: it holds what the chunk
    request sent after the upload returned (and is empty when that request
    failed). *)
Theorem successful_upload_becomes_current
  (uploadInputRef : option HTMLInputElement) (s : View) (srv : Server)
  (w : World) (file : File) (resp : UploadResponse.t) :
  chosen_file uploadInputRef = Some file ->
  fst (run srv (uploadAndIndexDocument (upload_form file s)) w) = Fulfilled resp ->
  let uploaded := snd (run srv (uploadAndIndexDocument (upload_form file s)) w) in
  let w' := snd (run srv (handleUploadAndIndex uploadInputRef s) w) in
  currentDoc (view w') = Some resp /\
  chunks (view w') = refreshed_chunks (fst (run srv getCurrentChunks uploaded)) /\
  sent w' = sent (snd (run srv getCurrentChunks uploaded)).
Proof.
  intros Hfile Hcall uploaded w'. subst uploaded w'.
  rewrite (run_handleUploadAndIndex _ _ _ _ Hfile).
  change (uploadAndIndexDocument (upload_form file s))
    with (api (call_uploadAndIndexDocument (upload_form file s))) in *.
  rewrite !run_api_after, Hcall. cbn [fst snd].
  destruct (adopt_spec srv resp
              (after (setStatus (lit "Загрузка и индексация..."))
                 (after (setIsLoading true)
                    (snd (run srv (api (call_uploadAndIndexDocument
                                          (upload_form file s))) w)))))
    as (Hdoc & Hchunks & _ & _ & _ & _ & Hsent).
  rewrite Hdoc, Hchunks, Hsent.
  change getCurrentChunks with (api call_getCurrentChunks).
  rewrite !run_api_after. repeat split; reflexivity.
Qed.

Lemma successful_upload_becomes_current_witness :
  let ref := Some {| files := Some [notes_file] |} in
  let w' := snd (run (serve healthy) (handleUploadAndIndex ref initial_view)
                   (start_world initial_view)) in
  currentDoc (view w') = Some notes_doc /\
  chunks (view w') = notes_chunks /\
  status (view w') = lit "Текущий документ: notes.txt, чанков: 5, модель: mini".
Proof.
  destruct (@successful_upload_becomes_current
              (Some {| files := Some [notes_file] |}) initial_view
              (serve healthy) (start_world initial_view) notes_file notes_doc
              eq_refl eq_refl) as (Hdoc & Hchunks & _).
  intros ref w'. split; [ exact Hdoc | ]. split; [ exact Hchunks | reflexivity ].
Defined.

Lemma adopt_chunk_failure (srv : Server) (resp : UploadResponse.t) (w : World)
  (e : Error) :
  fst (run srv getCurrentChunks w) = Rejected e ->
  overwrites_chunk_error resp (adopt srv resp w) /\
  chunks (view (adopt srv resp w)) = [] /\
  status (view (adopt srv resp w)) = current_document_line resp /\
  currentDoc (view (adopt srv resp w)) = Some resp.
Proof.
  intros Hchunks. unfold overwrites_chunk_error, adopt.
  rewrite run_refreshChunks.
  change getCurrentChunks with (api call_getCurrentChunks) in *.
  rewrite run_api_after, Hchunks. cbn [fst snd].
  split; [ eexists; repeat split; reflexivity | repeat split; reflexivity ].
Qed.

(** C10. When the descriptor has arrived (from upload-and-index or from
    make-current) and the chunk request that follows fails, the chunk
    refresh empties the chunk list and sets the chunk-error status, and the
    handler then overwrites that status: at its end the chunk list is empty
    and the status reports the new current document. *)
Theorem chunk_failure_keeps_success_status (s : View) (srv : Server)
  (w : World) (resp : UploadResponse.t) (e : Error) :
  (forall (uploadInputRef : option HTMLInputElement) (file : File),
     chosen_file uploadInputRef = Some file ->
     let call := run srv (uploadAndIndexDocument (upload_form file s)) w in
     fst call = Fulfilled resp ->
     fst (run srv getCurrentChunks (snd call)) = Rejected e ->
     let w' := snd (run srv (handleUploadAndIndex uploadInputRef s) w) in
     overwrites_chunk_error resp w' /\
     chunks (view w') = [] /\
     status (view w') = current_document_line resp /\
     currentDoc (view w') = Some resp) /\
  (forall fileName : str,
     let call := run srv (loadFromStorage (load_params fileName s)) w in
     fst call = Fulfilled resp ->
     fst (run srv getCurrentChunks (snd call)) = Rejected e ->
     let w' := snd (run srv (handleMakeCurrent s fileName) w) in
     overwrites_chunk_error resp w' /\
     chunks (view w') = [] /\
     status (view w') = current_document_line resp /\
     currentDoc (view w') = Some resp).
Proof.
  split.
  - intros ref file Hfile call Hcall Hchunks w'. subst call w'.
    rewrite (run_handleUploadAndIndex _ _ _ _ Hfile).
    change (uploadAndIndexDocument (upload_form file s))
      with (api (call_uploadAndIndexDocument (upload_form file s))) in *.
    rewrite !run_api_after, Hcall. cbn [fst snd].
    apply (@adopt_chunk_failure srv resp _ e).
    change getCurrentChunks with (api call_getCurrentChunks) in *.
    rewrite !run_api_after. exact Hchunks.
  - intros fileName call Hcall Hchunks w'. subst call w'.
    rewrite run_handleMakeCurrent.
    change (loadFromStorage (load_params fileName s))
      with (api (call_loadFromStorage (load_params fileName s))) in *.
    rewrite !run_api_after, Hcall. cbn [fst snd].
    apply (@adopt_chunk_failure srv resp _ e).
    change getCurrentChunks with (api call_getCurrentChunks) in *.
    rewrite !run_api_after. exact Hchunks.
Qed.

Lemma chunk_failure_keeps_success_status_witness :
  let ref := Some {| files := Some [notes_file] |} in
  let w' := snd (run (serve chunks_unavailable)
                   (handleUploadAndIndex ref loaded_view) (start_world loaded_view)) in
  chunks loaded_view = notes_chunks /\
  chunks (view w') = [] /\
  status (view w') = lit "Текущий документ: notes.txt, чанков: 5, модель: mini" /\
  currentDoc (view w') = Some notes_doc.
Proof.
  intros ref w'. split; [ reflexivity | ].
  exact (proj2 (proj1 (chunk_failure_keeps_success_status loaded_view
                         (serve chunks_unavailable) (start_world loaded_view)
                         notes_doc (new_Error (lit "chunks unavailable")))
                  ref notes_file eq_refl eq_refl eq_refl)).
Defined.

(* ----------------------------------------------------------------- *)
(** *** The busy flag *)

(** A handler that ends in [finally { setIsLoading(false) }] lowers the
    flag on every path. *)
Lemma finally_lowers (t : Handler) (lowered : bool) :
  lowers_flag lowered (finally t (call (setIsLoading false))).
Proof.
  revert lowered. induction t as [a | e | u k IH | T sh req k IH];
    intros lowered; simpl.
  - reflexivity.
  - reflexivity.
  - apply IH.
  - intros r. apply IH.
Qed.

Lemma handlers_lower_flag (s : View) :
  (forall (uploadInputRef : option HTMLInputElement) (file : File),
     chosen_file uploadInputRef = Some file ->
     lowers_flag false (handleUploadAndIndex uploadInputRef s)) /\
  (~ blank (query s) -> lowers_flag false (handleSearch s)) /\
  (forall fileName : str, lowers_flag false (handleMakeCurrent s fileName)).
Proof.
  repeat split.
  - intros ref file Hfile. unfold handleUploadAndIndex. rewrite Hfile.
    cbn [lowers_flag bind call negb]. apply finally_lowers.
  - intros Hquery. unfold handleSearch. rewrite (guard_not_blank Hquery).
    cbn [lowers_flag bind call negb]. apply finally_lowers.
  - intros fileName. unfold handleMakeCurrent.
    cbn [lowers_flag bind call negb]. apply finally_lowers.
Qed.

(** Started or resumed on any page, such a handler either ends with the
    flag lowered, or is parked at a request after which it will lower it. *)
Lemma advance_lowers (t : Handler) (lowered : bool) (p : Page) :
  lowers_flag lowered t ->
  (lowered = true -> isLoading (ui p) = false) ->
  (inflight (advance t p) = inflight p /\ isLoading (ui (advance t p)) = false) \/
  (exists w, inflight (advance t p) = inflight p ++ [w] /\ flag_lowering w).
Proof.
  revert lowered p. induction t as [a | e | u k IH | T sh req k IH];
    intros lowered p Hlow Hflag; simpl in *.
  - left. auto.
  - left. auto.
  - apply (IH _ {| ui := apply u (ui p); uploadInput := uploadInput p;
                   inflight := inflight p; issued := issued p |} Hlow).
    destruct u; simpl; try exact Hflag.
    destruct b; [ discriminate | reflexivity ].
  - right. exists (Waiting sh req k). split; [ reflexivity | exact Hlow ].
Qed.

(** C9. Each of the three handlers that raise the busy flag lowers it
    before it ends.  Run alone, whatever the server answers (success or
    failure of any of its requests), it ends with the flag lowered, and a
    handler stopped by its guard never raises the flag.  On the page,
    whatever else is in flight and in whatever order answers arrive, each
    time one of its requests is answered the handler either ends with the
    flag lowered or waits for one more request after which the same
    holds. *)
Theorem busy_flag_lowered (s : View) (srv : Server) (w : World) :
  (forall (uploadInputRef : option HTMLInputElement) (file : File),
     chosen_file uploadInputRef = Some file ->
     isLoading (view (snd (run srv (handleUploadAndIndex uploadInputRef s) w)))
     = false) /\
  (~ blank (query s) ->
     isLoading (view (snd (run srv (handleSearch s) w))) = false) /\
  (forall fileName : str,
     isLoading (view (snd (run srv (handleMakeCurrent s fileName) w))) = false) /\
  (forall uploadInputRef : option HTMLInputElement,
     chosen_file uploadInputRef = None ->
     isLoading (view (snd (run srv (handleUploadAndIndex uploadInputRef s) w)))
     = isLoading (view w)) /\
  (blank (query s) ->
     isLoading (view (snd (run srv (handleSearch s) w))) = isLoading (view w)) /\
  (forall (p : Page) (t : Handler),
     (exists (uploadInputRef : option HTMLInputElement) (file : File),
        chosen_file uploadInputRef = Some file /\
        t = handleUploadAndIndex uploadInputRef s) \/
     (~ blank (query s) /\ t = handleSearch s) \/
     (exists fileName : str, t = handleMakeCurrent s fileName) ->
     exists pending : Pending,
       inflight (advance t p) = inflight p ++ [pending] /\
       flag_lowering pending) /\
  (forall (p : Page) (i : nat) (pending : Pending) (a : Answer),
     nth_error (inflight p) i = Some pending ->
     flag_lowering pending ->
     exists p',
       step (Settle i a) p = Some p' /\
       ((inflight p' = inflight (settled i p) /\ isLoading (ui p') = false) \/
        (exists pending',
           inflight p' = inflight (settled i p) ++ [pending'] /\
           flag_lowering pending'))).
Proof.
  destruct (handlers_lower_flag s) as (Hupload & Hsearch & Hmake).
  repeat apply conj.
  - intros ref file Hfile. rewrite (run_handleUploadAndIndex _ _ _ _ Hfile).
    destruct (run srv (uploadAndIndexDocument _) _) as [[resp | err] w'];
      [ apply adopt_spec | reflexivity ].
  - intros Hquery. rewrite (run_handleSearch _ _ _ (guard_not_blank Hquery)).
    destruct (run srv (searchInDocument _ _) _) as [[res | err] w']; reflexivity.
  - intros fileName. rewrite run_handleMakeCurrent.
    destruct (run srv (loadFromStorage _) _) as [[resp | err] w'];
      [ apply adopt_spec | reflexivity ].
  - intros ref Hfile. unfold handleUploadAndIndex. rewrite Hfile. reflexivity.
  - intros Hquery. apply guard_blank in Hquery.
    rewrite (run_handleSearch_blank _ _ _ Hquery). reflexivity.
  - intros p t Ht.
    assert (Hlow : lowers_flag false t).
    { destruct Ht as [(ref & file & Hfile & ->) | [[Hquery ->] | [fileName ->]]];
        eauto. }
    assert (Hawaits : isLoading (ui (advance t p)) = true).
    { destruct Ht as [(ref & file & Hfile & ->) | [[Hquery ->] | [fileName ->]]].
      - unfold handleUploadAndIndex. rewrite Hfile. reflexivity.
      - unfold handleSearch. rewrite (guard_not_blank Hquery). reflexivity.
      - reflexivity. }
    destruct (advance_lowers t p Hlow) as [[_ Hdone] | Hparked].
    + discriminate.
    + congruence.
    + exact Hparked.
  - intros p i pending a Hnth Hpending.
    rewrite (step_Settle _ a _ Hnth). eexists. split; [ reflexivity | ].
    destruct pending as [T sh req k]. simpl in Hpending. simpl resume.
    apply (advance_lowers (k (a T sh)) (settled i p) (Hpending (a T sh))).
    discriminate.
Qed.

Lemma busy_flag_lowered_witness :
  isLoading (view (snd (run (serve healthy)
                          (handleUploadAndIndex
                             (Some {| files := Some [notes_file] |}) loaded_view)
                          (start_world loaded_view)))) = false /\
  isLoading (view (snd (run (serve offline) (handleSearch loaded_view)
                          (start_world loaded_view)))) = false.
Proof.
  destruct (busy_flag_lowered loaded_view (serve healthy) (start_world loaded_view))
    as (Hupload & _).
  destruct (busy_flag_lowered loaded_view (serve offline) (start_world loaded_view))
    as (_ & Hsearch & _).
  split.
  - exact (Hupload (Some {| files := Some [notes_file] |}) notes_file eq_refl).
  - apply Hsearch. intros Hblank. apply guard_blank in Hblank. discriminate Hblank.
Defined.

(* ----------------------------------------------------------------- *)
(** *** Failed actions *)

(** C3, as stated, fails.  On the mounted page that holds a document and
    its chunks, a click on "refresh chunks" whose request fails (the network
    is down) empties the chunk list, and that action is not the search;
    current document, storage list and search results stay.  Likewise a
    current-document refresh whose request fails clears the document it
    finds. *)
Lemma failed_refresh_clears_state :
  observe (fun v => (chunks v, currentDoc v)) document_loaded
    = Some (notes_chunks, Some notes_doc) /\
  api_outcome offline call_getCurrentChunks
    = Rejected (new_Error (lit "Failed to fetch")) /\
  observe (fun v => (chunks v, currentDoc v, status v))
    (document_loaded ++ [ Click RefreshChunksButton; Settle 0 offline ])
    = Some ([], Some notes_doc,
            lit "Нет документа или не удалось загрузить чанки") /\
  currentDoc loaded_view = Some notes_doc /\
  currentDoc (view (snd (run (serve offline) refreshCurrentDocument
                           (start_world loaded_view))))
    = None.
Proof. repeat split; vm_compute; reflexivity. Qed.

(** C3, amended. When the request of an action fails with error [e], the
    handler sends nothing more and the view it leaves is the one it found
    with a new status (the message of [e], or for the two refreshes below a
    fixed text) and, for the handlers that raise the busy flag, the flag
    lowered; current document, chunk list, storage list and search results
    are as before, with three exceptions: a failed search empties the search
    results, a failed chunk refresh empties the chunk list, and a failed
    current-document refresh clears the current document. *)
Theorem failed_action_frame (s : View) (srv : Server) (w : World) (e : Error) :
  let failed := setStatus (lit "Ошибка: " ++ message e) in
  (* storage list refresh *)
  (fst (run srv listStorageDocuments w) = Rejected e ->
   view (snd (run srv refreshStorage w)) = apply failed (view w) /\
   sent (snd (run srv refreshStorage w))
     = sent (snd (run srv listStorageDocuments w))) /\
  (* storage upload, by dialog and by drop *)
  (forall (input : HTMLInputElement) (file : File),
     chosen_file (Some input) = Some file ->
     fst (run srv (uploadToStorage [(lit "file", FileValue file)]) w) = Rejected e ->
     view (snd (run srv (storage_input_onchange input) w)) = apply failed (view w) /\
     sent (snd (run srv (storage_input_onchange input) w))
       = sent (snd (run srv (uploadToStorage [(lit "file", FileValue file)]) w))) /\
  (forall (ev : DragEvent) (dropped : list File) (file : File),
     dataTransfer ev = Some dropped ->
     nth_error dropped 0 = Some file ->
     fst (run srv (uploadToStorage [(lit "file", FileValue file)]) w) = Rejected e ->
     view (snd (run srv (handleDrop ev) w)) = apply failed (view w) /\
     sent (snd (run srv (handleDrop ev) w))
       = sent (snd (run srv (uploadToStorage [(lit "file", FileValue file)]) w))) /\
  (* upload-and-index *)
  (forall (uploadInputRef : option HTMLInputElement) (file : File),
     chosen_file uploadInputRef = Some file ->
     fst (run srv (uploadAndIndexDocument (upload_form file s)) w) = Rejected e ->
     view (snd (run srv (handleUploadAndIndex uploadInputRef s) w))
       = apply (setIsLoading false) (apply failed (view w)) /\
     sent (snd (run srv (handleUploadAndIndex uploadInputRef s) w))
       = sent (snd (run srv (uploadAndIndexDocument (upload_form file s)) w))) /\
  (* make-current *)
  (forall fileName : str,
     fst (run srv (loadFromStorage (load_params fileName s)) w) = Rejected e ->
     view (snd (run srv (handleMakeCurrent s fileName) w))
       = apply (setIsLoading false) (apply failed (view w)) /\
     sent (snd (run srv (handleMakeCurrent s fileName) w))
       = sent (snd (run srv (loadFromStorage (load_params fileName s)) w))) /\
  (* search: the results are emptied as well *)
  (~ blank (query s) ->
   fst (run srv (searchInDocument (query s) (topK s)) w) = Rejected e ->
   view (snd (run srv (handleSearch s) w))
     = apply (setIsLoading false)
         (apply (setSearchResults []) (apply failed (view w))) /\
   sent (snd (run srv (handleSearch s) w))
     = sent (snd (run srv (searchInDocument (query s) (topK s)) w))) /\
  (* chunk refresh: the chunk list is emptied as well *)
  (fst (run srv getCurrentChunks w) = Rejected e ->
   view (snd (run srv refreshChunks w))
     = apply (setStatus (lit "Нет документа или не удалось загрузить чанки"))
         (apply (setChunks []) (view w)) /\
   sent (snd (run srv refreshChunks w)) = sent (snd (run srv getCurrentChunks w))) /\
  (* current-document refresh: the current document is cleared as well *)
  (fst (run srv getCurrentDocument w) = Rejected e ->
   view (snd (run srv refreshCurrentDocument w))
     = apply (setStatus (lit "Документ не загружен"))
         (apply (setCurrentDoc None) (view w)) /\
   sent (snd (run srv refreshCurrentDocument w))
     = sent (snd (run srv getCurrentDocument w))).
Proof.
  intros failed. subst failed. repeat apply conj.
  - intros Hcall. rewrite run_refreshStorage.
    change listStorageDocuments with (api call_listStorageDocuments) in *.
    destruct (run_api call_listStorageDocuments) as [req Hrun].
    rewrite Hrun in *. cbn [fst snd] in *. rewrite Hcall. split; reflexivity.
  - intros input file Hfile Hcall.
    rewrite (run_storage_input_onchange _ _ _ Hfile).
    change (uploadToStorage [(lit "file", FileValue file)])
      with (api (call_uploadToStorage [(lit "file", FileValue file)])) in *.
    rewrite run_api_after.
    destruct (run_api (call_uploadToStorage [(lit "file", FileValue file)]))
      as [req Hrun].
    rewrite Hrun in *. cbn [fst snd] in *. rewrite Hcall. split; reflexivity.
  - intros ev dropped file Hdata Hfile Hcall.
    rewrite (run_handleDrop _ _ _ Hdata Hfile).
    change (uploadToStorage [(lit "file", FileValue file)])
      with (api (call_uploadToStorage [(lit "file", FileValue file)])) in *.
    rewrite run_api_after.
    destruct (run_api (call_uploadToStorage [(lit "file", FileValue file)]))
      as [req Hrun].
    rewrite Hrun in *. cbn [fst snd] in *. rewrite Hcall. split; reflexivity.
  - intros ref file Hfile Hcall. rewrite (run_handleUploadAndIndex _ _ _ _ Hfile).
    change (uploadAndIndexDocument (upload_form file s))
      with (api (call_uploadAndIndexDocument (upload_form file s))) in *.
    rewrite !run_api_after.
    destruct (run_api (call_uploadAndIndexDocument (upload_form file s)))
      as [req Hrun].
    rewrite Hrun in *. cbn [fst snd] in *. rewrite Hcall. split; reflexivity.
  - intros fileName Hcall. rewrite run_handleMakeCurrent.
    change (loadFromStorage (load_params fileName s))
      with (api (call_loadFromStorage (load_params fileName s))) in *.
    rewrite !run_api_after.
    destruct (run_api (call_loadFromStorage (load_params fileName s)))
      as [req Hrun].
    rewrite Hrun in *. cbn [fst snd] in *. rewrite Hcall. split; reflexivity.
  - intros Hquery Hcall. rewrite (run_handleSearch _ _ _ (guard_not_blank Hquery)).
    change (searchInDocument (query s) (topK s))
      with (api (call_searchInDocument (query s) (topK s))) in *.
    rewrite !run_api_after.
    destruct (run_api (call_searchInDocument (query s) (topK s))) as [req Hrun].
    rewrite Hrun in *. cbn [fst snd] in *. rewrite Hcall. split; reflexivity.
  - intros Hcall. rewrite run_refreshChunks.
    change getCurrentChunks with (api call_getCurrentChunks) in *.
    destruct (run_api call_getCurrentChunks) as [req Hrun].
    rewrite Hrun in *. cbn [fst snd] in *. rewrite Hcall. split; reflexivity.
  - intros Hcall. rewrite run_refreshCurrentDocument.
    change getCurrentDocument with (api call_getCurrentDocument) in *.
    destruct (run_api call_getCurrentDocument) as [req Hrun].
    rewrite Hrun in *. cbn [fst snd] in *. rewrite Hcall. split; reflexivity.
Qed.

Lemma failed_action_frame_witness :
  let w' := snd (run (serve offline) (handleSearch loaded_view)
                   (start_world loaded_view)) in
  status (view w') = lit "Ошибка: Failed to fetch" /\
  searchResults (view w') = [] /\
  currentDoc (view w') = Some notes_doc /\
  chunks (view w') = notes_chunks /\
  storage (view w') = [notes_entry] /\
  List.length (sent w') = 1.
Proof.
  intros w'. subst w'.
  destruct (failed_action_frame loaded_view (serve offline) (start_world loaded_view)
              (new_Error (lit "Failed to fetch")))
    as (_ & _ & _ & _ & _ & Hsearch & _).
  destruct Hsearch as [Hview Hsent].
  - intros Hblank. apply guard_blank in Hblank. discriminate Hblank.
  - reflexivity.
  - rewrite Hview, Hsent. repeat split; reflexivity.
Defined.

(* ----------------------------------------------------------------- *)
(** *** The page: which clicks the busy flag refuses *)

Lemma str_eqb_refl (a : str) : str_eqb a a = true.
Proof. unfold str_eqb. destruct (list_eq_dec N.eq_dec a a); congruence. Qed.

Lemma Button_eqb_refl (b : Button) : Button_eqb b b = true.
Proof. destruct b; simpl; auto using str_eqb_refl. Qed.

Lemma Button_eqb_eq (a b : Button) : Button_eqb a b = true -> a = b.
Proof.
  destruct a, b; simpl; try discriminate; try reflexivity;
    unfold str_eqb; destruct (list_eq_dec _ _ _); congruence.
Qed.

(** A button can be clicked exactly when the render shows it enabled. *)
Lemma clickable_In (s : View) (b : Button) :
  clickable s b = true <-> In (b, false) (render_buttons s).
Proof.
  unfold clickable. rewrite existsb_exists. split.
  - intros ([b' d] & Hin & Htest). simpl in Htest.
    apply andb_prop in Htest. destruct Htest as [Hb Hd].
    apply Button_eqb_eq in Hb. subst b'. destruct d; [ discriminate | exact Hin ].
  - intros Hin. exists (b, false). split; [ exact Hin | ].
    simpl. rewrite Button_eqb_refl. reflexivity.
Qed.

(** The [disabled] attribute of every button of a render: the busy flag on
    the upload-and-index and the search button, absent on all others. *)
Lemma render_buttons_disabled (s : View) (b : Button) (d : bool) :
  In (b, d) (render_buttons s) ->
  d = match b with
      | UploadAndIndexButton | SearchButton => isLoading s
      | _ => false
      end.
Proof.
  unfold render_buttons. rewrite !in_app_iff, !in_map_iff. simpl.
  intros [H | [H | [H | H]]].
  - destruct H as [H | []]. inversion H. reflexivity.
  - destruct H as (doc & H & _). inversion H. reflexivity.
  - destruct H as [H | [H | [H | [H | []]]]]; inversion H; reflexivity.
  - destruct H as (res & H & _). inversion H. reflexivity.
Qed.

Lemma render_buttons_guarded (s : View) :
  In (UploadAndIndexButton, isLoading s) (render_buttons s) /\
  In (SearchButton, isLoading s) (render_buttons s).
Proof.
  unfold render_buttons. rewrite !in_app_iff. simpl. split; right; right; left; auto.
Qed.

Lemma clickable_guarded (s : View) :
  clickable s UploadAndIndexButton = negb (isLoading s) /\
  clickable s SearchButton = negb (isLoading s).
Proof.
  destruct (render_buttons_guarded s) as [Hupload Hsearch].
  split.
  - destruct (clickable s UploadAndIndexButton) eqn:Hc.
    + apply clickable_In, render_buttons_disabled in Hc. rewrite <- Hc. reflexivity.
    + destruct (isLoading s); [ reflexivity | ].
      apply clickable_In in Hupload. congruence.
  - destruct (clickable s SearchButton) eqn:Hc.
    + apply clickable_In, render_buttons_disabled in Hc. rewrite <- Hc. reflexivity.
    + destruct (isLoading s); [ reflexivity | ].
      apply clickable_In in Hsearch. congruence.
Qed.

Lemma clickable_MakeCurrent (s : View) (fileName : str) :
  clickable s (MakeCurrentButton fileName) = true <->
  In fileName (map StorageEntry.file_name (storage s)).
Proof.
  rewrite clickable_In. unfold render_buttons.
  rewrite !in_app_iff, !in_map_iff. simpl. split.
  - intros [H | [H | [H | H]]].
    + destruct H as [H | []]. discriminate H.
    + destruct H as (doc & H & Hin). inversion H. exists doc. auto.
    + destruct H as [H | [H | [H | [H | []]]]]; discriminate H.
    + destruct H as (res & H & _). discriminate H.
  - intros (doc & Hname & Hin). right. left. exists doc. rewrite Hname. auto.
Qed.

Lemma clickable_unguarded (s : View) :
  clickable s RefreshStorageButton = true /\
  clickable s ChooseFileButton = true /\
  clickable s RefreshChunksButton = true.
Proof.
  repeat split; apply clickable_In; unfold render_buttons;
    rewrite !in_app_iff; simpl; auto 10.
Qed.

(** The addresses of the table are the base address followed by the
    paths. *)
Lemma endpoint_urls :
  API_BASE ++ lit "/api/upload" = lit "http://localhost:8000/api/upload" /\
  API_BASE ++ lit "/api/document/current"
    = lit "http://localhost:8000/api/document/current" /\
  API_BASE ++ lit "/api/document/current/chunks"
    = lit "http://localhost:8000/api/document/current/chunks" /\
  API_BASE ++ lit "/api/search" = lit "http://localhost:8000/api/search" /\
  API_BASE ++ lit "/api/storage/list"
    = lit "http://localhost:8000/api/storage/list" /\
  API_BASE ++ lit "/api/storage/upload"
    = lit "http://localhost:8000/api/storage/upload" /\
  API_BASE ++ lit "/api/storage/load"
    = lit "http://localhost:8000/api/storage/load".
Proof. repeat apply conj; vm_compute; reflexivity. Qed.

(** Every API function is one [fetch] of its row of the table, followed by
    [handleResponse]. *)
Lemma api_fetch {T : Type} (c : ApiCall T) :
  api c = (res <- fetch (shape_of c) (request_of c) ;; handleResponse res).
Proof.
  destruct endpoint_urls as (H1 & H2 & H3 & H4 & H5 & H6 & H7).
  destruct c; cbn [api shape_of request_of];
    [ unfold uploadAndIndexDocument; rewrite H1
    | unfold getCurrentDocument; rewrite H2
    | unfold getCurrentChunks; rewrite H3
    | unfold searchInDocument; rewrite H4
    | unfold listStorageDocuments; rewrite H5
    | unfold uploadToStorage; rewrite H6
    | unfold loadFromStorage; rewrite H7 ];
    reflexivity.
Qed.

(* ----------------------------------------------------------------- *)
(** *** Who touches the busy flag *)

Lemma keeps_flag_bind {A B : Type} (t : Task Update A) (f : A -> Task Update B) :
  keeps_flag t -> (forall a, keeps_flag (f a)) -> keeps_flag (bind t f).
Proof.
  intros Ht Hf. induction t as [a | e | u k IH | T sh req k IH]; simpl in *.
  - apply Hf.
  - exact I.
  - destruct u; auto.
  - intros r. apply IH, Ht.
Qed.

Lemma keeps_flag_try_catch {A : Type} (t : Task Update A)
  (h : Error -> Task Update A) :
  keeps_flag t -> (forall e, keeps_flag (h e)) -> keeps_flag (try_catch t h).
Proof.
  intros Ht Hh. induction t as [a | e | u k IH | T sh req k IH]; simpl in *.
  - exact I.
  - apply Hh.
  - destruct u; auto.
  - intros r. apply IH, Ht.
Qed.

Lemma keeps_flag_fetch_handle {T : Type} (sh : Shape T) (req : Request) :
  keeps_flag (res <- fetch sh req ;; handleResponse res).
Proof.
  simpl. intros [res | e]; simpl; [ | exact I ].
  unfold handleResponse. destruct (ok res); simpl; [ | exact I ].
  destruct (json res); exact I.
Qed.

(** No function of the API client touches the state. *)
Lemma keeps_flag_api {T : Type} (c : ApiCall T) : keeps_flag (api c).
Proof. rewrite api_fetch. apply keeps_flag_fetch_handle. Qed.

Ltac keeps_flag :=
  repeat first
    [ exact I
    | exact (keeps_flag_api call_getCurrentDocument)
    | exact (keeps_flag_api call_getCurrentChunks)
    | exact (keeps_flag_api call_listStorageDocuments)
    | exact (keeps_flag_api (call_uploadToStorage _))
    | apply keeps_flag_try_catch
    | apply keeps_flag_bind
    | intro ].

(** The refreshes, the two storage uploads, the edits, and an index or a
    search stopped by its guard never touch the flag. *)
Lemma refreshes_keep_flag :
  keeps_flag refreshStorage /\ keeps_flag refreshCurrentDocument /\
  keeps_flag refreshChunks /\ keeps_flag (refreshCurrentDocument ;; refreshChunks).
Proof.
  assert (Hchunks : keeps_flag refreshChunks)
    by (unfold refreshChunks; keeps_flag).
  assert (Hdoc : keeps_flag refreshCurrentDocument)
    by (unfold refreshCurrentDocument; keeps_flag).
  repeat apply conj; try assumption.
  - unfold refreshStorage. keeps_flag.
  - apply keeps_flag_bind; auto.
Qed.

Lemma storage_uploads_keep_flag :
  (forall e : DragEvent, keeps_flag (handleDrop e)) /\
  (forall input : HTMLInputElement, keeps_flag (storage_input_onchange input)).
Proof.
  destruct refreshes_keep_flag as (Hstorage & _).
  split.
  - intros e. unfold handleDrop. destruct (dataTransfer e) as [files | ];
      [ | exact I ].
    destruct (nth_error files 0); [ | exact I ].
    cbv zeta. keeps_flag.
  - intros input. unfold storage_input_onchange.
    destruct (chosen_file (Some input)); [ | exact I ].
    cbv zeta. keeps_flag.
Qed.

Lemma guards_keep_flag (s : View) :
  (forall uploadInputRef : option HTMLInputElement,
     chosen_file uploadInputRef = None ->
     keeps_flag (handleUploadAndIndex uploadInputRef s)) /\
  (blank (query s) -> keeps_flag (handleSearch s)).
Proof.
  split.
  - intros ref Hfile. unfold handleUploadAndIndex. rewrite Hfile. exact I.
  - intros Hquery. apply guard_blank in Hquery. unfold handleSearch.
    rewrite Hquery. exact I.
Qed.

(** A body that leaves the flag alone, wrapped in
    [finally { setIsLoading(false) }], lowers it once, as it ends. *)
Lemma finally_lowers_last (t : Handler) :
  keeps_flag t -> lowers_flag_last (finally t (call (setIsLoading false))).
Proof.
  induction t as [a | e | u k IH | T sh req k IH]; simpl; intros Hk.
  - split; [ reflexivity | exact I ].
  - split; [ reflexivity | exact I ].
  - destruct u; try contradiction; apply IH, Hk.
  - intros r. apply IH, Hk.
Qed.

(** The common form of the three handlers that raise the flag: they raise
    it, show a status, send the request of one API function, and wait. *)
Lemma raise_and_wait {T : Type} (c : ApiCall T) (st : str)
  (f : T -> Handler) (h : Error -> Handler) :
  (forall a, keeps_flag (f a)) -> (forall e, keeps_flag (h e)) ->
  exists k : Settled (Response T) -> Handler,
    (call (setIsLoading true) ;;
     call (setStatus st) ;;
     try_catch_finally (bind (api c) f) h (call (setIsLoading false)))
    = Do (setIsLoading true)
        (Do (setStatus st) (Await (shape_of c) (request_of c) k)) /\
    flag_holding (Waiting (shape_of c) (request_of c) k).
Proof.
  intros Hf Hh. rewrite api_fetch.
  exists (fun r => try_catch_finally
                     (bind (res <- await r ;; handleResponse res) f) h
                     (call (setIsLoading false))).
  split; [ reflexivity | ].
  intros r. apply finally_lowers_last, keeps_flag_try_catch; [ | exact Hh ].
  apply keeps_flag_bind; [ | exact Hf ].
  destruct r as [res | e]; simpl; [ | exact I ].
  unfold handleResponse. destruct (ok res); simpl; [ | exact I ].
  destruct (json res); exact I.
Qed.

Lemma handlers_raise_flag (s : View) (t : Handler) :
  (exists (uploadInputRef : option HTMLInputElement) (file : File),
     chosen_file uploadInputRef = Some file /\
     t = handleUploadAndIndex uploadInputRef s) \/
  (~ blank (query s) /\ t = handleSearch s) \/
  (exists fileName : str, t = handleMakeCurrent s fileName) ->
  exists (st : str) (T : Type) (sh : Shape T) (req : Request)
         (k : Settled (Response T) -> Handler),
    t = Do (setIsLoading true) (Do (setStatus st) (Await sh req k)) /\
    flag_holding (Waiting sh req k).
Proof.
  destruct refreshes_keep_flag as (_ & _ & Hchunks & _).
  intros [(ref & file & Hfile & ->) | [[Hquery ->] | [fileName ->]]].
  - unfold handleUploadAndIndex. rewrite Hfile. cbv zeta.
    match goal with
    | |- context [uploadAndIndexDocument ?fd] =>
        destruct (raise_and_wait (call_uploadAndIndexDocument fd)
                    (lit "Загрузка и индексация...")
                    (fun resp => call (setCurrentDoc (Some resp)) ;;
                                 refreshChunks ;;
                                 call (setStatus (current_document_line resp)))
                    (fun err => call (setStatus (lit "Ошибка: " ++ message err))))
          as (k & Heq & Hk)
    end.
    + intros resp. keeps_flag.
    + intros err. exact I.
    + do 5 eexists. split; [ exact Heq | exact Hk ].
  - unfold handleSearch. rewrite (guard_not_blank Hquery). cbn [negb].
    destruct (raise_and_wait (call_searchInDocument (query s) (topK s))
                (lit "Идёт поиск...")
                (fun res => call (setSearchResults (SearchResponse.results res)) ;;
                            call (setStatus
                                    (lit "Найдено результатов: "
                                     ++ String_ (Z.of_nat (List.length
                                                   (SearchResponse.results res))))))
                (fun err => call (setStatus (lit "Ошибка: " ++ message err)) ;;
                            call (setSearchResults [])))
      as (k & Heq & Hk).
    + intros res. exact I.
    + intros err. exact I.
    + do 5 eexists. split; [ exact Heq | exact Hk ].
  - unfold handleMakeCurrent.
    match goal with
    | |- context [loadFromStorage ?params] =>
        destruct (raise_and_wait (call_loadFromStorage params)
                    (lit "Загрузка из хранилища...")
                    (fun resp => call (setCurrentDoc (Some resp)) ;;
                                 refreshChunks ;;
                                 call (setStatus (current_document_line resp)))
                    (fun err => call (setStatus (lit "Ошибка: " ++ message err))))
          as (k & Heq & Hk)
    end.
    + intros resp. keeps_flag.
    + intros err. exact I.
    + do 5 eexists. split; [ exact Heq | exact Hk ].
Qed.

(** Started or resumed on any page, a task that leaves the flag alone
    leaves it as it is, and what it parks leaves it alone. *)
Lemma advance_keeps (t : Handler) (p : Page) :
  keeps_flag t ->
  isLoading (ui (advance t p)) = isLoading (ui p) /\
  (inflight (advance t p) = inflight p \/
   exists w, inflight (advance t p) = inflight p ++ [w] /\ flag_keeping w).
Proof.
  revert p. induction t as [a | e | u k IH | T sh req k IH];
    intros p Hk; simpl in *.
  - auto.
  - auto.
  - destruct u; try contradiction;
      match goal with
      | |- context [advance k ?q] => exact (IH q Hk)
      end.
  - split; [ reflexivity | ].
    right. exists (Waiting sh req k). split; [ reflexivity | exact Hk ].
Qed.

(** A handler that lowers the flag as it ends either ends, with the flag
    lowered, or waits once more without having touched it. *)
Lemma advance_lowers_last (t : Handler) (p : Page) :
  lowers_flag_last t ->
  (isLoading (ui (advance t p)) = false /\
   inflight (advance t p) = inflight p) \/
  (isLoading (ui (advance t p)) = isLoading (ui p) /\
   exists w, inflight (advance t p) = inflight p ++ [w] /\ flag_holding w).
Proof.
  revert p. induction t as [a | e | u k IH | T sh req k IH];
    intros p Hl; simpl in *.
  - contradiction.
  - contradiction.
  - destruct u;
      try match goal with
          | |- context [advance k ?q] => exact (IH q Hl)
          end.
    destruct Hl as [-> Hend]. left.
    destruct k; try contradiction; split; reflexivity.
  - right. split; [ reflexivity | ].
    exists (Waiting sh req k). split; [ reflexivity | exact Hl ].
Qed.

Lemma lowers_last_touches (t : Handler) :
  lowers_flag_last t -> keeps_flag t -> False.
Proof.
  induction t as [a | e | u k IH | T sh req k IH]; simpl; intros Hl Hk.
  - exact Hl.
  - exact Hl.
  - destruct u; auto.
  - exact (IH (Rejected (new_Error [])) (Hl _) (Hk _)).
Qed.

Lemma holding_not_keeping (w : Pending) :
  flag_holding w -> flag_keeping w -> False.
Proof.
  destruct w as [T sh req k]. simpl. intros Hl Hk.
  exact (lowers_last_touches _ (Hl (Rejected (new_Error []))) (Hk _)).
Qed.

Lemma Forall_settled {A : Type} (P : A -> Prop) (l : list A) (i : nat) :
  Forall P l -> Forall P (firstn i l ++ skipn (S i) l).
Proof.
  intros H. revert i. induction H as [ | x l Hx Hl IH]; intros [ | i]; simpl.
  - constructor.
  - constructor.
  - exact Hl.
  - constructor; [ exact Hx | apply IH ].
Qed.

Lemma Exists_settled {A : Type} (P : A -> Prop) (l : list A) (i : nat) (w : A) :
  Exists P l -> nth_error l i = Some w -> ~ P w ->
  Exists P (firstn i l ++ skipn (S i) l).
Proof.
  intros H. revert i. induction H as [x l Hx | x l Hl IH];
    intros [ | i] Hnth Hw; simpl in *.
  - inversion Hnth. subst. contradiction.
  - left. exact Hx.
  - exact Hl.
  - right. exact (IH i Hnth Hw).
Qed.

(** The flag follows the requests in flight on the mounted page and after
    every event. *)
Lemma follows_advance_keeps (t : Handler) (p : Page) :
  keeps_flag t -> flag_follows_requests p -> flag_follows_requests (advance t p).
Proof.
  intros Hk [Hall Hset].
  destruct (advance_keeps t p Hk) as [Hflag [Hin | (w & Hin & Hw)]];
    unfold flag_follows_requests; rewrite Hflag, Hin.
  - auto.
  - split.
    + apply Forall_app. split; [ exact Hall | ]. constructor; auto.
    + intros Htrue. apply Exists_app. left. auto.
Qed.

Lemma follows_advance_lowers_last (t : Handler) (p : Page) :
  lowers_flag_last t ->
  Forall (fun w => flag_keeping w \/ flag_holding w) (inflight p) ->
  flag_follows_requests (advance t p).
Proof.
  intros Hl Hall.
  destruct (advance_lowers_last t p Hl) as [[Hflag Hin] | [Hflag (w & Hin & Hw)]];
    unfold flag_follows_requests; rewrite Hin.
  - split; [ exact Hall | ]. rewrite Hflag. discriminate.
  - split.
    + apply Forall_app. split; [ exact Hall | ]. constructor; auto.
    + intros _. apply Exists_app. right. constructor. exact Hw.
Qed.

Lemma follows_advance_raise (s : View) (t : Handler) (p : Page) :
  (exists (uploadInputRef : option HTMLInputElement) (file : File),
     chosen_file uploadInputRef = Some file /\
     t = handleUploadAndIndex uploadInputRef s) \/
  (~ blank (query s) /\ t = handleSearch s) \/
  (exists fileName : str, t = handleMakeCurrent s fileName) ->
  Forall (fun w => flag_keeping w \/ flag_holding w) (inflight p) ->
  flag_follows_requests (advance t p).
Proof.
  intros Ht Hall.
  destruct (handlers_raise_flag Ht) as (st & T & sh & req & k & -> & Hk).
  split; simpl.
  - apply Forall_app. split; [ exact Hall | ]. constructor; auto.
  - intros _. apply Exists_app. right. constructor. exact Hk.
Qed.

Lemma blank_dec (q : str) : {blank q} + {~ blank q}.
Proof.
  destruct (forallb isWhiteSpace q) eqn:H.
  - left. apply blank_forallb. exact H.
  - right. intros Hb. apply blank_forallb in Hb. congruence.
Qed.

Lemma step_follows (e : Event) (p p' : Page) :
  step e p = Some p' -> flag_follows_requests p -> flag_follows_requests p'.
Proof.
  destruct refreshes_keep_flag as (Hstorage & _ & Hchunks & _).
  destruct storage_uploads_keep_flag as (Hdrop & Hchosen).
  intros Hstep Hp. pose proof Hp as [Hall Hset].
  destruct e as [b | input | e | input | c | i a]; simpl in Hstep.
  - destruct (clickable (ui p) b); [ | discriminate ].
    inversion Hstep. subst p'. clear Hstep.
    destruct b as [ | fileName | | | | | text]; cbn [onClick advance].
    + apply follows_advance_keeps; assumption.
    + apply (@follows_advance_raise (ui p)); eauto.
    + exact Hp.
    + destruct (chosen_file (uploadInput p)) as [file | ] eqn:Hfile.
      * apply (@follows_advance_raise (ui p)); eauto.
      * apply follows_advance_keeps; [ | exact Hp ].
        apply guards_keep_flag. exact Hfile.
    + apply follows_advance_keeps; assumption.
    + destruct (blank_dec (query (ui p))) as [Hquery | Hquery].
      * apply follows_advance_keeps; [ | exact Hp ].
        apply guards_keep_flag. exact Hquery.
      * apply (@follows_advance_raise (ui p)); eauto.
    + exact Hp.
  - inversion Hstep. apply follows_advance_keeps; auto.
  - inversion Hstep. apply follows_advance_keeps; auto.
  - inversion Hstep. exact Hp.
  - inversion Hstep. apply follows_advance_keeps; [ | exact Hp ].
    destruct c; exact I.
  - destruct (nth_error (inflight p) i) as [w | ] eqn:Hnth; [ | discriminate ].
    inversion Hstep. subst p'. clear Hstep.
    assert (Hrest : Forall (fun w => flag_keeping w \/ flag_holding w)
                      (inflight (settled i p)))
      by (apply Forall_settled; exact Hall).
    assert (Hw : flag_keeping w \/ flag_holding w).
    { rewrite Forall_forall in Hall. apply Hall.
      eapply nth_error_In. exact Hnth. }
    destruct w as [T sh req k]. simpl resume.
    destruct Hw as [Hw | Hw].
    + apply follows_advance_keeps; [ apply Hw | ].
      split; [ exact Hrest | ].
      intros Htrue. apply (Exists_settled _ (Hset Htrue) Hnth).
      intros Hholding. exact (holding_not_keeping _ Hholding Hw).
    + apply follows_advance_lowers_last; [ apply Hw | exact Hrest ].
Qed.

Lemma mount_follows : flag_follows_requests (mount first_render).
Proof.
  destruct refreshes_keep_flag as (Hstorage & _ & _ & Hdocument).
  unfold mount, mount_effect. cbn [fold_left].
  apply follows_advance_keeps; [ exact Hdocument | ].
  apply follows_advance_keeps; [ exact Hstorage | ].
  split; [ constructor | discriminate ].
Qed.

Lemma steps_follow (es : list Event) (p p' : Page) :
  steps es p = Some p' -> flag_follows_requests p -> flag_follows_requests p'.
Proof.
  revert p. induction es as [ | e es IH]; intros p Hsteps Hp; simpl in Hsteps.
  - inversion Hsteps. subst. exact Hp.
  - destruct (step e p) as [q | ] eqn:Hstep; [ | discriminate ].
    exact (IH q Hsteps (@step_follows e p q Hstep Hp)).
Qed.

(** C8, as stated, fails: the busy flag does not follow every request.  A
    storage upload is in flight, the flag is down, and a click on search
    is accepted and sends its request; a search is in flight, a
    make-current started next to it fails, which lowers the flag, and a
    second search is started next to the first. *)
Lemma search_starts_with_requests_in_flight :
  in_flight [ Settle 0 healthy; Settle 0 healthy; Settle 0 healthy;
              Change (TypeQuery (lit "hello"));
              FileChosen {| files := Some [notes_file] |} ]
    = Some ([ lit "http://localhost:8000/api/storage/upload" ], false) /\
  in_flight [ Settle 0 healthy; Settle 0 healthy; Settle 0 healthy;
              Change (TypeQuery (lit "hello"));
              FileChosen {| files := Some [notes_file] |};
              Click SearchButton ]
    = Some ([ lit "http://localhost:8000/api/storage/upload";
              lit "http://localhost:8000/api/search" ], true) /\
  in_flight [ Settle 0 healthy; Settle 0 healthy; Settle 0 healthy;
              Change (TypeQuery (lit "hello"));
              Click SearchButton;
              Click (MakeCurrentButton (lit "notes.txt"));
              Settle 1 offline ]
    = Some ([ lit "http://localhost:8000/api/search" ], false) /\
  in_flight [ Settle 0 healthy; Settle 0 healthy; Settle 0 healthy;
              Change (TypeQuery (lit "hello"));
              Click SearchButton;
              Click (MakeCurrentButton (lit "notes.txt"));
              Settle 1 offline;
              Click SearchButton ]
    = Some ([ lit "http://localhost:8000/api/search";
              lit "http://localhost:8000/api/search" ], true).
Proof. repeat apply conj; vm_compute; reflexivity. Qed.

(** C8, amended.  On every page, whatever is in flight:

    - the only [disabled] attributes are those of the upload-and-index and
      search buttons, and both are the busy flag, so a click on either is
      refused exactly while the flag is set;
    - upload-and-index (a file being chosen), search (the query not being
      blank) and make-current raise the flag as they send their request:
      once started, the flag is set, a click on upload-and-index or on
      search is refused, and their request is in flight, held by a handler
      that will touch the flag once more, to lower it as it ends;
    - a click on a rendered make-current button and a file chosen for the
      storage upload are always accepted, and each sends one more request
      next to those in flight; the storage upload leaves the flag alone;
    - every other event (the refresh buttons, the file dialogs, a drop, an
      edit, an index or a search stopped by its guard) leaves the flag as
      it is, and so does what it leaves in flight;
    - an answer to a request that leaves the flag alone leaves it as it
      is; an answer to a request that holds the flag either ends its
      handler, which lowers the flag, or leaves the flag as it is and the
      handler waiting once more;
    - so, on a page reached from the mount, the flag is set only while a
      request of upload-and-index, search or make-current is in flight. *)
Theorem busy_flag_guards_two_actions (p : Page) :
  (forall (b : Button) (d : bool),
     In (b, d) (render_buttons (ui p)) ->
     d = match b with
         | UploadAndIndexButton | SearchButton => isLoading (ui p)
         | _ => false
         end) /\
  step (Click UploadAndIndexButton) p
    = (if isLoading (ui p) then None
       else Some (advance (handleUploadAndIndex (uploadInput p) (ui p)) p)) /\
  step (Click SearchButton) p
    = (if isLoading (ui p) then None
       else Some (advance (handleSearch (ui p)) p)) /\
  (forall (s : View) (t : Handler),
     (exists (uploadInputRef : option HTMLInputElement) (file : File),
        chosen_file uploadInputRef = Some file /\
        t = handleUploadAndIndex uploadInputRef s) \/
     (~ blank (query s) /\ t = handleSearch s) \/
     (exists fileName : str, t = handleMakeCurrent s fileName) ->
     isLoading (ui (advance t p)) = true /\
     step (Click UploadAndIndexButton) (advance t p) = None /\
     step (Click SearchButton) (advance t p) = None /\
     exists pending : Pending,
       inflight (advance t p) = inflight p ++ [pending] /\
       flag_holding pending) /\
  (forall fileName : str,
     In fileName (map StorageEntry.file_name (storage (ui p))) ->
     exists k req,
       step (Click (MakeCurrentButton fileName)) p
       = Some {| ui := apply (setStatus (lit "Загрузка из хранилища..."))
                         (apply (setIsLoading true) (ui p));
                 uploadInput := uploadInput p;
                 inflight := inflight p ++ [Waiting AsUploadResponse req k];
                 issued := issued p ++ [req] |} /\
       url req = lit "http://localhost:8000/api/storage/load") /\
  (forall (input : HTMLInputElement) (file : File),
     chosen_file (Some input) = Some file ->
     exists k req,
       step (FileChosen input) p
       = Some {| ui := apply (setStatus (lit "Загрузка файла в хранилище...")) (ui p);
                 uploadInput := uploadInput p;
                 inflight := inflight p ++ [Waiting AsStorageUploadResponse req k];
                 issued := issued p ++ [req] |} /\
       url req = lit "http://localhost:8000/api/storage/upload" /\
       flag_keeping (Waiting AsStorageUploadResponse req k)) /\
  step (Click ChooseFileButton) p = Some p /\
  (forall (e : Event) (p' : Page),
     step e p = Some p' ->
     match e with
     | Click UploadAndIndexButton => chosen_file (uploadInput p) = None
     | Click SearchButton => blank (query (ui p))
     | Click (MakeCurrentButton _) => False
     | Settle _ _ => False
     | _ => True
     end ->
     isLoading (ui p') = isLoading (ui p) /\
     (inflight p' = inflight p \/
      exists pending : Pending,
        inflight p' = inflight p ++ [pending] /\ flag_keeping pending)) /\
  (forall (i : nat) (a : Answer) (pending : Pending),
     nth_error (inflight p) i = Some pending ->
     exists p',
       step (Settle i a) p = Some p' /\
       (flag_keeping pending ->
          isLoading (ui p') = isLoading (ui p) /\
          (inflight p' = inflight (settled i p) \/
           exists pending',
             inflight p' = inflight (settled i p) ++ [pending'] /\
             flag_keeping pending')) /\
       (flag_holding pending ->
          (isLoading (ui p') = false /\ inflight p' = inflight (settled i p)) \/
          (isLoading (ui p') = isLoading (ui p) /\
           exists pending',
             inflight p' = inflight (settled i p) ++ [pending'] /\
             flag_holding pending'))) /\
  (forall es : list Event,
     steps es (mount first_render) = Some p ->
     Forall (fun w => flag_keeping w \/ flag_holding w) (inflight p) /\
     (isLoading (ui p) = true -> Exists flag_holding (inflight p))).
Proof.
  destruct (clickable_guarded (ui p)) as [Hupload Hsearch].
  destruct refreshes_keep_flag as (Hstorage & _ & Hchunks & _).
  destruct storage_uploads_keep_flag as (Hdrop & Hchosen).
  repeat apply conj.
  - intros b d. apply render_buttons_disabled.
  - simpl. rewrite Hupload. destruct (isLoading (ui p)); reflexivity.
  - simpl. rewrite Hsearch. destruct (isLoading (ui p)); reflexivity.
  - intros s t Ht.
    destruct (handlers_raise_flag Ht) as (st & T & sh & req & k & -> & Hk).
    assert (Hflag : isLoading
                      (ui (advance (Do (setIsLoading true)
                                      (Do (setStatus st) (Await sh req k))) p))
                    = true) by reflexivity.
    destruct (clickable_guarded
                (ui (advance (Do (setIsLoading true)
                                (Do (setStatus st) (Await sh req k))) p)))
      as [Hupload' Hsearch'].
    rewrite Hflag in Hupload', Hsearch'.
    split; [ exact Hflag | ].
    split; [ unfold step; rewrite Hupload'; reflexivity | ].
    split; [ unfold step; rewrite Hsearch'; reflexivity | ].
    exists (Waiting sh req k). split; [ reflexivity | exact Hk ].
  - intros fileName Hin. apply clickable_MakeCurrent in Hin.
    do 2 eexists. split.
    + simpl. rewrite Hin. reflexivity.
    + vm_compute. reflexivity.
  - intros input file Hfile.
    pose proof (Hchosen input) as Hkeeps.
    unfold storage_input_onchange in Hkeeps. rewrite Hfile in Hkeeps.
    do 2 eexists. split; [ | split ].
    + simpl. unfold storage_input_onchange. rewrite Hfile. reflexivity.
    + vm_compute. reflexivity.
    + exact Hkeeps.
  - simpl. destruct (clickable_unguarded (ui p)) as (_ & Hchoose & _).
    rewrite Hchoose. destruct p; reflexivity.
  - intros e p' Hstep He.
    destruct e as [b | input | e | input | c | i a]; simpl in Hstep.
    + destruct (clickable (ui p) b); [ | discriminate ].
      inversion Hstep. subst p'. clear Hstep.
      destruct b as [ | fileName | | | | | text]; cbn [onClick advance].
      * apply advance_keeps. exact Hstorage.
      * contradiction.
      * auto.
      * apply advance_keeps. apply guards_keep_flag. exact He.
      * apply advance_keeps. exact Hchunks.
      * apply advance_keeps. apply guards_keep_flag. exact He.
      * auto.
    + inversion Hstep. apply advance_keeps. apply Hchosen.
    + inversion Hstep. apply advance_keeps. apply Hdrop.
    + inversion Hstep. simpl. auto.
    + inversion Hstep. apply advance_keeps. destruct c; exact I.
    + contradiction.
  - intros i a pending Hnth.
    rewrite (step_Settle _ a _ Hnth). eexists. split; [ reflexivity | ].
    destruct pending as [T sh req k]. simpl resume. split.
    + intros Hk. apply (advance_keeps (k (a T sh)) (settled i p) (Hk _)).
    + intros Hk. apply (advance_lowers_last (k (a T sh)) (settled i p) (Hk _)).
  - intros es Hsteps. exact (@steps_follow es _ _ Hsteps mount_follows).
Qed.

Example loading_page_reached :
  steps [ Settle 0 healthy; Click (MakeCurrentButton (lit "notes.txt")) ]
    (mount first_render) = Some loading_page.
Proof. reflexivity. Qed.

Lemma busy_flag_guards_two_actions_witness :
  isLoading (ui loading_page) = true /\
  map url (issued loading_page)
    = [ lit "http://localhost:8000/api/storage/list";
        lit "http://localhost:8000/api/document/current";
        lit "http://localhost:8000/api/storage/load" ] /\
  List.length (inflight loading_page) = 2 /\
  step (Click SearchButton) loading_page = None /\
  step (Click UploadAndIndexButton) loading_page = None /\
  (exists k req,
     step (Click (MakeCurrentButton (lit "notes.txt"))) loading_page
     = Some {| ui := apply (setStatus (lit "Загрузка из хранилища..."))
                       (apply (setIsLoading true) (ui loading_page));
               uploadInput := uploadInput loading_page;
               inflight := inflight loading_page ++ [Waiting AsUploadResponse req k];
               issued := issued loading_page ++ [req] |} /\
     url req = lit "http://localhost:8000/api/storage/load") /\
  Exists flag_holding (inflight loading_page) /\
  isLoading (ui (mount first_render)) = false /\
  isLoading (ui (advance (handleSearch loaded_view) (mount first_render))) = true /\
  step (Click SearchButton) (advance (handleSearch loaded_view) (mount first_render))
    = None /\
  step (Click UploadAndIndexButton)
    (advance (handleSearch loaded_view) (mount first_render)) = None.
Proof.
  destruct (busy_flag_guards_two_actions loading_page)
    as (_ & Hupload & Hsearch & _ & Hmake & _ & _ & _ & _ & Hreached).
  destruct (busy_flag_guards_two_actions (mount first_render))
    as (_ & _ & _ & Hraise & _).
  destruct (Hraise loaded_view (handleSearch loaded_view))
    as (Hflag & Hupload' & Hsearch' & _).
  { right. left. split; [ | reflexivity ].
    intros Hblank. apply guard_blank in Hblank. discriminate Hblank. }
  split; [ vm_compute; reflexivity | ].
  split; [ vm_compute; reflexivity | ].
  split; [ vm_compute; reflexivity | ].
  split; [ exact Hsearch | ]. split; [ exact Hupload | ].
  split; [ apply Hmake; left; reflexivity | ].
  split.
  { apply (Hreached [ Settle 0 healthy; Click (MakeCurrentButton (lit "notes.txt")) ]);
      reflexivity. }
  split; [ reflexivity | ].
  split; [ exact Hflag | ]. split; [ exact Hsearch' | exact Hupload' ].
Defined.

Example flag_down_with_requests_in_flight :
  List.length (inflight (mount first_render)) = 2 /\
  isLoading (ui (mount first_render)) = false /\
  clickable (ui (mount first_render)) SearchButton = true.
Proof. repeat split; reflexivity. Qed.

(* ----------------------------------------------------------------- *)
(** *** The page and the handler run alone *)

Lemma settled_last (l : list Pending) (w : Pending) :
  nth_error (l ++ [w]) (List.length l) = Some w /\
  firstn (List.length l) (l ++ [w]) ++ skipn (S (List.length l)) (l ++ [w]) = l.
Proof.
  induction l as [ | x l [IHnth IHrest]]; simpl.
  - split; reflexivity.
  - split; [ exact IHnth | f_equal; exact IHrest ].
Qed.

(** [run] is the page on which every request of the handler is answered
    before anything else happens: started on any page, and with each of its
    requests settled as the server says as soon as it is in flight, the
    handler leaves the view and the requests that [run] computes, and the
    other requests in flight as they were. *)
Lemma run_on_page (srv : Server) (t : Handler) (p : Page) :
  exists es : list Event,
    Forall (fun e => exists i req n, e = Settle i (answer_of srv req n)) es /\
    steps es (advance t p) =
    Some {| ui := view (snd (run srv t {| view := ui p; sent := issued p |}));
            uploadInput := uploadInput p;
            inflight := inflight p;
            issued := sent (snd (run srv t {| view := ui p; sent := issued p |})) |}.
Proof.
  revert p. induction t as [a | e | u k IH | T sh req k IH]; intros p.
  - exists []. split; [ constructor | destruct p; reflexivity ].
  - exists []. split; [ constructor | destruct p; reflexivity ].
  - destruct (IH {| ui := apply u (ui p); uploadInput := uploadInput p;
                    inflight := inflight p; issued := issued p |}) as [es Hes].
    exists es. exact Hes.
  - destruct (settled_last (inflight p) (Waiting sh req k)) as [Hnth Hrest].
    destruct (IH (srv T sh req (List.length (issued p)))
                {| ui := ui p; uploadInput := uploadInput p;
                   inflight := inflight p; issued := issued p ++ [req] |})
      as (es & Hsettle & Hes).
    exists (Settle (List.length (inflight p))
              (answer_of srv req (List.length (issued p))) :: es).
    split; [ constructor; [ do 3 eexists; reflexivity | exact Hsettle ] | ].
    cbn [steps step advance ui uploadInput inflight issued run view sent].
    rewrite Hnth. unfold answer_of, settled.
    cbn [resume ui uploadInput inflight issued]. rewrite Hrest. exact Hes.
Qed.

(* ----------------------------------------------------------------- *)
(** *** The page: what happens on mount *)

(** C4, as stated, fails: with no current document (the server refuses
    the current-document request) the chunk request is sent all the same,
    and when it is refused too the status ends as the chunk-error text, not
    as the default text. *)
Lemma mount_fetches_chunks_without_document :
  let p := after_events [Settle 1 no_document] (mount first_render) in
  let p' := after_events [Settle 1 no_document] p in
  steps [Settle 1 no_document; Settle 1 no_document] (mount first_render)
    = Some p' /\
  currentDoc (ui p) = None /\
  status (ui p) = lit "Документ не загружен" /\
  issued p = [ get "/api/storage/list"; get "/api/document/current";
               get "/api/document/current/chunks" ] /\
  currentDoc (ui p') = None /\
  status (ui p') = lit "Нет документа или не удалось загрузить чанки".
Proof. repeat split; vm_compute; reflexivity. Qed.

(** The outcome of an API call as a function of the answer. *)
Lemma api_outcome_eq {T : Type} (a : Answer) (c : ApiCall T) :
  api_outcome a c =
  match a T (shape_of c) with
  | Rejected e => Rejected e
  | Fulfilled r =>
      if ok r then json r
      else Rejected (new_Error (or_else (text r) (lit "Ошибка запроса")))
  end.
Proof.
  unfold api_outcome. destruct (run_api c) as [req Hrun]. rewrite Hrun.
  reflexivity.
Qed.

Ltac answer a :=
  rewrite ?api_outcome_eq; cbn [shape_of];
  cbn -[lit String_ API_BASE current_document_line];
  destruct (a _ _) as [[[] ? []] | ?]; reflexivity.

(** The mount task for the current document, once its request is
    answered: the view holds the document or the empty state, and the chunk
    request is sent. *)
Lemma document_arrives (a : Answer) (w : Pending) (p : Page) :
  parked (refreshCurrentDocument ;; refreshChunks) = Some w ->
  exists wc,
    parked refreshChunks = Some wc /\
    advance (resume a w) p =
    {| ui := match api_outcome a call_getCurrentDocument with
             | Fulfilled info =>
                 apply (setStatus (current_document_line info))
                   (apply (setCurrentDoc (Some info)) (ui p))
             | Rejected _ =>
                 apply (setStatus (lit "Документ не загружен"))
                   (apply (setCurrentDoc None) (ui p))
             end;
       uploadInput := uploadInput p;
       inflight := inflight p ++ [wc];
       issued := issued p ++ [get "/api/document/current/chunks"] |}.
Proof.
  intros Hw. injection Hw as <-. eexists. split; [ reflexivity | ].
  unfold resume. answer a.
Qed.

Lemma chunks_arrive (b : Answer) (w : Pending) (p : Page) :
  parked refreshChunks = Some w ->
  advance (resume b w) p =
  {| ui := match api_outcome b call_getCurrentChunks with
           | Fulfilled data => apply (setChunks data) (ui p)
           | Rejected _ =>
               apply (setStatus (lit "Нет документа или не удалось загрузить чанки"))
                 (apply (setChunks []) (ui p))
           end;
     uploadInput := uploadInput p;
     inflight := inflight p;
     issued := issued p |}.
Proof.
  intros Hw. injection Hw as <-. unfold resume. answer b.
Qed.

Lemma storage_arrives (a : Answer) (w : Pending) (p : Page) :
  parked refreshStorage = Some w ->
  advance (resume a w) p =
  {| ui := match api_outcome a call_listStorageDocuments with
           | Fulfilled list => apply (setStorage list) (ui p)
           | Rejected err => apply (setStatus (lit "Ошибка: " ++ message err)) (ui p)
           end;
     uploadInput := uploadInput p;
     inflight := inflight p;
     issued := issued p |}.
Proof.
  intros Hw. injection Hw as <-. unfold resume. answer a.
Qed.

(** C4, amended. The mount effect sends the storage-list request and then
    the current-document request, and both stay in flight.  Whenever the
    current-document request of the mount effect is answered, whatever else
    is in flight, the chunk request is sent next, whether or not the answer
    carries a document: a document is held with its status line, and any
    failure is the empty state (no document held, the default status text,
    no error text).  Whenever that chunk request is answered nothing more
    is sent: the chunks are held, or on failure the chunk list is emptied
    and the status becomes the chunk-error text. *)
Theorem mount_sequence :
  (exists w0 w1,
     parked refreshStorage = Some w0 /\
     parked (refreshCurrentDocument ;; refreshChunks) = Some w1 /\
     mount first_render =
     {| ui := initial_view;
        uploadInput := uploadInput first_render;
        inflight := [w0; w1];
        issued := [ get "/api/storage/list"; get "/api/document/current" ] |}) /\
  (forall (p : Page) (i : nat) (w : Pending) (a : Answer),
     parked (refreshCurrentDocument ;; refreshChunks) = Some w ->
     nth_error (inflight p) i = Some w ->
     exists wc,
       parked refreshChunks = Some wc /\
       step (Settle i a) p =
       Some {| ui := match api_outcome a call_getCurrentDocument with
                     | Fulfilled info =>
                         apply (setStatus (current_document_line info))
                           (apply (setCurrentDoc (Some info)) (ui p))
                     | Rejected _ =>
                         apply (setStatus (lit "Документ не загружен"))
                           (apply (setCurrentDoc None) (ui p))
                     end;
               uploadInput := uploadInput p;
               inflight := inflight (settled i p) ++ [wc];
               issued := issued p ++ [ get "/api/document/current/chunks" ] |}) /\
  (forall (p : Page) (i : nat) (w : Pending) (b : Answer),
     parked refreshChunks = Some w ->
     nth_error (inflight p) i = Some w ->
     step (Settle i b) p =
     Some {| ui := match api_outcome b call_getCurrentChunks with
                   | Fulfilled data => apply (setChunks data) (ui p)
                   | Rejected _ =>
                       apply (setStatus
                                (lit "Нет документа или не удалось загрузить чанки"))
                         (apply (setChunks []) (ui p))
                   end;
             uploadInput := uploadInput p;
             inflight := inflight (settled i p);
             issued := issued p |}).
Proof.
  split; [ | split ].
  - do 2 eexists. split; [ reflexivity | ]. split; reflexivity.
  - intros p i w a Hw Hi.
    destruct (document_arrives a (settled i p) Hw) as (wc & Hwc & Hstep).
    exists wc. split; [ exact Hwc | ].
    rewrite (step_Settle _ a _ Hi), Hstep. reflexivity.
  - intros p i w b Hw Hi.
    rewrite (step_Settle _ b _ Hi), (chunks_arrive b (settled i p) Hw).
    reflexivity.
Qed.

Lemma mount_sequence_witness :
  exists p2 p3,
    step (Settle 1 healthy) (mount first_render) = Some p2 /\
    currentDoc (ui p2) = Some notes_doc /\
    status (ui p2) = lit "Текущий документ: notes.txt, чанков: 5, модель: mini" /\
    issued p2 = [ get "/api/storage/list"; get "/api/document/current";
                  get "/api/document/current/chunks" ] /\
    step (Settle 1 healthy) p2 = Some p3 /\
    chunks (ui p3) = notes_chunks /\
    issued p3 = issued p2.
Proof.
  destruct mount_sequence as (_ & Hdocument & Hchunks).
  destruct (Hdocument (mount first_render) 1 _ healthy eq_refl eq_refl)
    as (wc & Hwc & Hstep2).
  injection Hwc as <-.
  match type of Hstep2 with _ = Some ?q => set (p2 := q) in * end.
  exists p2. eexists. split; [ exact Hstep2 | ].
  split; [ reflexivity | ]. split; [ vm_compute; reflexivity | ].
  split; [ reflexivity | ].
  split; [ exact (Hchunks p2 1 _ healthy eq_refl eq_refl) | ].
  split; reflexivity.
Defined.

(* ================================================================= *)
(** ** Further properties of the two sources *)

(* ----------------------------------------------------------------- *)
(** *** The API client: requests and failures *)

Lemma run_api_table {T : Type} (c : ApiCall T) (srv : Server) (w : World) :
  run srv (api c) w =
  (match srv T (shape_of c) (request_of c) (List.length (sent w)) with
   | Rejected e => Rejected e
   | Fulfilled r =>
       if ok r then json r
       else Rejected (new_Error (or_else (text r) (lit "Ошибка запроса")))
   end,
   {| view := view w; sent := sent w ++ [request_of c] |}).
Proof. rewrite api_fetch. apply run_fetch_handle. Qed.

(** X1. Every API function sends exactly one request, the one its row of
    the endpoint table gives, whatever the answer (there is no retry), and
    leaves the view as it is. *)
Theorem api_sends_one_request (T : Type) (c : ApiCall T) (srv : Server)
  (w : World) :
  sent (snd (run srv (api c) w)) = sent w ++ [request_of c] /\
  view (snd (run srv (api c) w)) = view w.
Proof. rewrite run_api_table. split; reflexivity. Qed.

(** X2. When the [fetch] itself rejects (a network failure), every API
    function rejects with that very error: the response rule is not
    applied and no fallback text is substituted. *)
Theorem network_failure_propagates (T : Type) (c : ApiCall T)
  (srv : Server) (w : World) (e : Error) :
  answers srv (shape_of c) (Rejected e) ->
  fst (run srv (api c) w) = Rejected e.
Proof.
  intros Hsrv. destruct (run_api c) as [req Hrun].
  rewrite Hrun, (Hsrv req). reflexivity.
Qed.

Lemma network_failure_propagates_witness :
  fst (run (serve offline) (api (call_searchInDocument (lit "hello") 3%Z))
         (start_world initial_view))
  = Rejected (new_Error (lit "Failed to fetch")).
Proof.
  apply (@network_failure_propagates _ (call_searchInDocument (lit "hello") 3%Z)
           (serve offline)).
  intros req n. reflexivity.
Defined.

(* ----------------------------------------------------------------- *)
(** *** The handlers: what they never let escape *)

Lemma refreshes_fulfil (srv : Server) (w : World) :
  fst (run srv refreshStorage w) = Fulfilled tt /\
  fst (run srv refreshCurrentDocument w) = Fulfilled tt /\
  fst (run srv refreshChunks w) = Fulfilled tt.
Proof.
  rewrite run_refreshStorage, run_refreshCurrentDocument, run_refreshChunks.
  destruct (run srv listStorageDocuments w) as [[? | ?] ?];
  destruct (run srv getCurrentDocument w) as [[? | ?] ?];
  destruct (run srv getCurrentChunks w) as [[? | ?] ?]; repeat split.
Qed.

(** X3. No [async] function of the component ever rejects: whatever the
    server answers and whatever the network does, every failure is caught
    inside the function, whose promise is fulfilled.  In particular the
    [then] of the mount effect always runs. *)
Theorem handlers_never_reject (f : Async) (srv : Server) (w : World) :
  fst (run srv (handler_of f) w) = Fulfilled tt.
Proof.
  destruct f as [ | | | | e | ref s | s | input | s fileName]; cbn [handler_of].
  - apply refreshes_fulfil.
  - apply refreshes_fulfil.
  - apply refreshes_fulfil.
  - rewrite run_bind.
    destruct (run srv refreshCurrentDocument w) as [[[] | err] w'] eqn:Hdoc.
    + apply refreshes_fulfil.
    + pose proof (proj1 (proj2 (refreshes_fulfil srv w))) as H.
      rewrite Hdoc in H. discriminate H.
  - destruct (dataTransfer e) as [dropped | ] eqn:Hdata;
      [ destruct (nth_error dropped 0) as [file | ] eqn:Hfile | ].
    + rewrite (run_handleDrop _ _ _ Hdata Hfile).
      destruct (run srv (uploadToStorage _) _) as [[stored | err] w'];
        [ | reflexivity ].
      cbn [fst snd]. reflexivity.
    + unfold handleDrop. rewrite Hdata, Hfile. reflexivity.
    + unfold handleDrop. rewrite Hdata. reflexivity.
  - destruct (chosen_file ref) as [file | ] eqn:Hfile.
    + rewrite (run_handleUploadAndIndex _ _ _ _ Hfile).
      destruct (run srv (uploadAndIndexDocument _) _) as [[resp | err] w'];
        reflexivity.
    + unfold handleUploadAndIndex. rewrite Hfile. reflexivity.
  - destruct (truthy (trim (query s))) eqn:Hquery.
    + rewrite (run_handleSearch _ _ _ Hquery).
      destruct (run srv (searchInDocument _ _) _) as [[res | err] w'];
        reflexivity.
    + rewrite (run_handleSearch_blank _ _ _ Hquery). reflexivity.
  - destruct (chosen_file (Some input)) as [file | ] eqn:Hfile.
    + rewrite (run_storage_input_onchange _ _ _ Hfile).
      destruct (run srv (uploadToStorage _) _) as [[stored | err] w'];
        reflexivity.
    + unfold storage_input_onchange. rewrite Hfile. reflexivity.
  - rewrite run_handleMakeCurrent.
    destruct (run srv (loadFromStorage _) _) as [[resp | err] w'];
      reflexivity.
Qed.

(* ----------------------------------------------------------------- *)
(** *** Nothing to upload *)

(** X4. Without a file the three uploads send nothing.  A drop without
    [dataTransfer] or with an empty file list, and a dialog closed without
    a file, do nothing at all (the page is left as it is, status included);
    upload-and-index without a chosen file only sets the prompt status,
    sends nothing and leaves the busy flag alone. *)
Theorem no_file_no_request (p : Page) :
  (forall e : DragEvent,
     dataTransfer e = None \/ dataTransfer e = Some [] ->
     handleDrop e = Return tt /\ step (Drop e) p = Some p) /\
  (forall input : HTMLInputElement,
     files input = None \/ files input = Some [] ->
     storage_input_onchange input = Return tt /\
     step (FileChosen input) p = Some p) /\
  (forall uploadInputRef : option HTMLInputElement,
     uploadInputRef = None \/
     uploadInputRef = Some {| files := None |} \/
     uploadInputRef = Some {| files := Some [] |} ->
     handleUploadAndIndex uploadInputRef (ui p)
       = call (setStatus (lit "Выберите .txt файл для загрузки")) /\
     advance (handleUploadAndIndex uploadInputRef (ui p)) p
       = {| ui := apply (setStatus (lit "Выберите .txt файл для загрузки")) (ui p);
            uploadInput := uploadInput p;
            inflight := inflight p;
            issued := issued p |}).
Proof.
  repeat apply conj.
  - intros e He.
    assert (H : handleDrop e = Return tt).
    { unfold handleDrop. destruct He as [-> | ->]; reflexivity. }
    split; [ exact H | ]. simpl. rewrite H. destruct p; reflexivity.
  - intros input Hinput.
    assert (H : storage_input_onchange input = Return tt).
    { unfold storage_input_onchange, chosen_file.
      destruct Hinput as [-> | ->]; reflexivity. }
    split; [ exact H | ]. simpl. rewrite H. destruct p; reflexivity.
  - intros ref Href.
    assert (H : handleUploadAndIndex ref (ui p)
                = call (setStatus (lit "Выберите .txt файл для загрузки"))).
    { destruct Href as [-> | [-> | ->]]; reflexivity. }
    split; [ exact H | ]. rewrite H. reflexivity.
Qed.

Lemma no_file_no_request_witness :
  step (Drop {| dataTransfer := Some [] |}) loading_page = Some loading_page /\
  step (FileChosen {| files := None |}) loading_page = Some loading_page.
Proof.
  destruct (no_file_no_request loading_page) as (Hdrop & Hchosen & _).
  split.
  - apply (Hdrop {| dataTransfer := Some [] |}). right. reflexivity.
  - apply (Hchosen {| files := None |}). left. reflexivity.
Defined.

(* ----------------------------------------------------------------- *)
(** *** What the handlers send *)

(** The requests of a world that adopted a descriptor: the chunk request
    after those of [w]. *)
Lemma adopt_sent (srv : Server) (resp : UploadResponse.t) (w : World) :
  sent (adopt srv resp w) = sent w ++ [request_of call_getCurrentChunks].
Proof.
  destruct (adopt_spec srv resp w) as (_ & _ & _ & _ & _ & _ & Hsent).
  rewrite Hsent. change getCurrentChunks with (api call_getCurrentChunks).
  rewrite run_api_table. reflexivity.
Qed.

(** [String(n)] is the decimal digits of [n] while [n] is a safe integer;
    beyond, it is the shortest digits that identify the Number, in the
    exponent notation from 21 digits on. *)
Lemma String_safe_integer (n : number) :
  (Z.abs n < 2 ^ 53)%Z -> String_ n = lit (decimal n).
Proof.
  intros Hn. unfold String_. apply Z.ltb_lt in Hn. rewrite Hn. reflexivity.
Qed.

Example String_of_numbers :
  String_ 800%Z = lit "800" /\
  String_ (-5)%Z = lit "-5" /\
  String_ (2 ^ 53)%Z = lit "9007199254740992" /\
  String_ (2 ^ 53 + 1)%Z = lit "9007199254740992" /\
  String_ (2 ^ 60)%Z = lit "1152921504606847000" /\
  String_ (10 ^ 21 - 1)%Z = lit "1e+21" /\
  String_ (2 ^ 70)%Z = lit "1.1805916207174113e+21" /\
  String_ (- 10 ^ 23)%Z = lit "-1e+23" /\
  String_ (2 ^ 1024)%Z = lit "Infinity".
Proof. repeat apply conj; vm_compute; reflexivity. Qed.

(** X5. With a file chosen, upload-and-index sends one multipart POST to
    /api/upload whose form holds, in this order, the file, the encoder
    name, the chunk size and the chunk overlap of the render that was
    clicked, the two numbers as [String] prints them (all their digits
    while they are safe integers, see [String_]).  When that call succeeds
    the chunk request follows and nothing else; when it fails nothing
    follows. *)
Theorem upload_requests (uploadInputRef : option HTMLInputElement) (s : View)
  (srv : Server) (w : World) (file : File) :
  chosen_file uploadInputRef = Some file ->
  let upload :=
    {| url := lit "http://localhost:8000/api/upload"; method := POST;
       headers := [];
       body := FormBody
                 [ (lit "file", FileValue file);
                   (lit "encoder_name",
                    TextValue (match encoderName s with
                               | mini => lit "mini"
                               | labse => lit "labse"
                               end));
                   (lit "chunk_size", TextValue (String_ (chunkSize s)));
                   (lit "chunk_overlap", TextValue (String_ (chunkOverlap s))) ] |} in
  sent (snd (run srv (handleUploadAndIndex uploadInputRef s) w)) =
  sent w ++ upload ::
    match srv _ AsUploadResponse upload (List.length (sent w)) with
    | Fulfilled r =>
        if ok r
        then match json r with
             | Fulfilled _ => [ request_of call_getCurrentChunks ]
             | Rejected _ => []
             end
        else []
    | Rejected _ => []
    end.
Proof.
  intros Hfile upload.
  rewrite (run_handleUploadAndIndex _ _ _ _ Hfile).
  change (uploadAndIndexDocument (upload_form file s))
    with (api (call_uploadAndIndexDocument (upload_form file s))).
  rewrite run_api_table.
  change (request_of (call_uploadAndIndexDocument (upload_form file s)))
    with upload.
  cbn [sent after shape_of].
  destruct (srv _ AsUploadResponse upload _) as [[[] ? [resp | err]] | err];
    cbn [ok json text fst snd];
    try (rewrite adopt_sent; cbn [sent after]; rewrite <- app_assoc; reflexivity);
    cbn [report_failure after sent]; reflexivity.
Qed.

Lemma upload_requests_witness :
  map body (sent (snd (run (serve healthy)
                         (handleUploadAndIndex
                            (Some {| files := Some [notes_file] |}) initial_view)
                         (start_world initial_view))))
  = [ FormBody [ (lit "file", FileValue notes_file);
                 (lit "encoder_name", TextValue (lit "mini"));
                 (lit "chunk_size", TextValue (lit "800"));
                 (lit "chunk_overlap", TextValue (lit "200")) ];
      NoBody ] /\
  map body (sent (snd (run (serve offline)
                         (handleUploadAndIndex
                            (Some {| files := Some [notes_file] |})
                            (apply (setChunkSize (2 ^ 60)%Z) initial_view))
                         (start_world initial_view))))
  = [ FormBody [ (lit "file", FileValue notes_file);
                 (lit "encoder_name", TextValue (lit "mini"));
                 (lit "chunk_size", TextValue (lit "1152921504606847000"));
                 (lit "chunk_overlap", TextValue (lit "200")) ] ].
Proof.
  rewrite (@upload_requests (Some {| files := Some [notes_file] |}) initial_view
             (serve healthy) (start_world initial_view) notes_file eq_refl).
  rewrite (@upload_requests (Some {| files := Some [notes_file] |})
             (apply (setChunkSize (2 ^ 60)%Z) initial_view)
             (serve offline) (start_world initial_view) notes_file eq_refl).
  split; vm_compute; reflexivity.
Defined.

(** X6. For every make-current call that succeeds the handler sends the
    POST to /api/storage/load, its JSON body holding the clicked file name
    and the encoder name, chunk size and chunk overlap of the render, and
    then the chunk request; it leaves the returned descriptor as the current
    document, the chunk list refreshed, the status line of that document
    and the busy flag lowered, and storage list and search results as they
    were. *)
Theorem successful_load_becomes_current (s : View) (fileName : str)
  (srv : Server) (w : World) (resp : UploadResponse.t) :
  let load :=
    {| url := lit "http://localhost:8000/api/storage/load"; method := POST;
       headers := [(lit "Content-Type", lit "application/json")];
       body := JSON_stringify
                 [ (lit "file_name", JString fileName);
                   (lit "encoder_name",
                    JString (match encoderName s with
                             | mini => lit "mini"
                             | labse => lit "labse"
                             end));
                   (lit "chunk_size", JNumber (chunkSize s));
                   (lit "chunk_overlap", JNumber (chunkOverlap s)) ] |} in
  fst (run srv (loadFromStorage (load_params fileName s)) w) = Fulfilled resp ->
  let loaded := snd (run srv (loadFromStorage (load_params fileName s)) w) in
  let w' := snd (run srv (handleMakeCurrent s fileName) w) in
  sent w' = sent w ++ [ load; request_of call_getCurrentChunks ] /\
  currentDoc (view w') = Some resp /\
  chunks (view w') = refreshed_chunks (fst (run srv getCurrentChunks loaded)) /\
  status (view w') = current_document_line resp /\
  isLoading (view w') = false /\
  storage (view w') = storage (view w) /\
  searchResults (view w') = searchResults (view w).
Proof.
  intros load Hcall loaded w'. subst loaded w'.
  rewrite run_handleMakeCurrent.
  change (loadFromStorage (load_params fileName s))
    with (api (call_loadFromStorage (load_params fileName s))) in *.
  rewrite !run_api_after, Hcall. cbn [fst snd].
  rewrite adopt_sent.
  destruct (adopt_spec srv resp
              (after (setStatus (lit "Загрузка из хранилища..."))
                 (after (setIsLoading true)
                    (snd (run srv (api (call_loadFromStorage
                                          (load_params fileName s))) w)))))
    as (Hdoc & Hchunks & Hstatus & Hflag & Hstorage & Hresults & _).
  rewrite Hdoc, Hchunks, Hstatus, Hflag, Hstorage, Hresults.
  change getCurrentChunks with (api call_getCurrentChunks).
  rewrite !run_api_after, run_api_table. cbn [fst snd sent view after].
  rewrite <- app_assoc. repeat split; reflexivity.
Qed.

Lemma successful_load_becomes_current_witness :
  let w' := snd (run (serve (serving draft_doc draft_chunks))
                   (handleMakeCurrent loaded_view (lit "draft.txt"))
                   (start_world loaded_view)) in
  currentDoc loaded_view = Some notes_doc /\
  currentDoc (view w') = Some draft_doc /\
  chunks (view w') = draft_chunks /\
  status (view w') = lit "Текущий документ: draft.txt, чанков: 2, модель: mini".
Proof.
  intros w'. subst w'. split; [ reflexivity | ].
  destruct (@successful_load_becomes_current loaded_view (lit "draft.txt")
              (serve (serving draft_doc draft_chunks)) (start_world loaded_view)
              draft_doc eq_refl)
    as (_ & Hdoc & Hchunks & Hstatus & _).
  split; [ exact Hdoc | ]. split; [ exact Hchunks | ].
  rewrite Hstatus. vm_compute. reflexivity.
Defined.

(** X7. A query that is not blank is sent as it was typed: the search
    handler sends exactly one request, whose body holds the query
    untrimmed and the top-k of the render, and whatever the outcome it
    leaves current document, chunk list and storage list as they were. *)
Theorem search_sends_query_as_typed (s : View) (srv : Server) (w : World) :
  ~ blank (query s) ->
  let w' := snd (run srv (handleSearch s) w) in
  sent w' = sent w ++
    [ {| url := lit "http://localhost:8000/api/search"; method := POST;
         headers := [(lit "Content-Type", lit "application/json")];
         body := JSON_stringify [ (lit "query", JString (query s));
                                  (lit "top_k", JNumber (topK s)) ] |} ] /\
  currentDoc (view w') = currentDoc (view w) /\
  chunks (view w') = chunks (view w) /\
  storage (view w') = storage (view w).
Proof.
  intros Hquery w'. subst w'.
  rewrite (run_handleSearch _ _ _ (guard_not_blank Hquery)).
  change (searchInDocument (query s) (topK s))
    with (api (call_searchInDocument (query s) (topK s))).
  rewrite !run_api_after, run_api_table. cbn [fst snd].
  destruct (srv _ _ _ _) as [[[] ? [res | err]] | err];
    cbn [ok json text]; repeat split; reflexivity.
Qed.

Lemma search_sends_query_as_typed_witness :
  map body (sent (snd (run (serve healthy)
                         (handleSearch (apply (setQuery (lit "  hello ")) initial_view))
                         (start_world initial_view))))
  = [ JSON_stringify [ (lit "query", JString (lit "  hello "));
                       (lit "top_k", JNumber 3%Z) ] ].
Proof.
  destruct (@search_sends_query_as_typed
              (apply (setQuery (lit "  hello ")) initial_view) (serve healthy)
              (start_world initial_view)) as (Hsent & _).
  - intros Hblank. apply guard_blank in Hblank. vm_compute in Hblank.
    discriminate Hblank.
  - rewrite Hsent. reflexivity.
Defined.

(* ----------------------------------------------------------------- *)
(** *** The storage list *)

(** X8. A storage refresh that succeeds replaces the storage list
    wholesale by the list of the server.  By the refresh button nothing else
    changes (the status keeps what it showed); after a storage upload, by
    dialog or by drop, that succeeded, the upload request is followed by
    the list request and the status ends as the file-added text. *)
Theorem storage_list_replaced (srv : Server) (w : World)
  (entries : list StorageEntry.t) :
  (fst (run srv listStorageDocuments w) = Fulfilled entries ->
   view (snd (run srv refreshStorage w)) = apply (setStorage entries) (view w)) /\
  (forall (file : File) (stored : StorageUploadResponse.t),
     let upload := call_uploadToStorage [(lit "file", FileValue file)] in
     fst (run srv (api upload) w) = Fulfilled stored ->
     fst (run srv listStorageDocuments (snd (run srv (api upload) w)))
       = Fulfilled entries ->
     (forall input : HTMLInputElement,
        chosen_file (Some input) = Some file ->
        view (snd (run srv (storage_input_onchange input) w))
          = apply (setStatus (lit "Файл добавлен в хранилище"))
              (apply (setStorage entries) (view w)) /\
        sent (snd (run srv (storage_input_onchange input) w))
          = sent w ++ [ request_of upload; request_of call_listStorageDocuments ]) /\
     (forall (e : DragEvent) (dropped : list File),
        dataTransfer e = Some dropped ->
        nth_error dropped 0 = Some file ->
        view (snd (run srv (handleDrop e) w))
          = apply (setStatus (lit "Файл добавлен в хранилище"))
              (apply (setStorage entries) (view w)) /\
        sent (snd (run srv (handleDrop e) w))
          = sent w ++ [ request_of upload; request_of call_listStorageDocuments ])).
Proof.
  split.
  - intros Hlist. rewrite run_refreshStorage.
    change listStorageDocuments with (api call_listStorageDocuments) in *.
    rewrite run_api_table in *. cbn [fst snd] in *. rewrite Hlist. reflexivity.
  - intros file stored upload Hupload Hlist. subst upload.
    change listStorageDocuments with (api call_listStorageDocuments) in *.
    rewrite !run_api_table in Hlist. rewrite run_api_table in Hupload. cbn [fst snd sent view] in *.
    split.
    + intros input Hfile. rewrite (run_storage_input_onchange _ _ _ Hfile).
      change (uploadToStorage [(lit "file", FileValue file)])
        with (api (call_uploadToStorage [(lit "file", FileValue file)])).
      rewrite run_api_after, run_api_table. cbn [fst snd]. rewrite Hupload.
      rewrite run_refreshStorage.
      change listStorageDocuments with (api call_listStorageDocuments).
      rewrite run_api_after, run_api_table. cbn [fst snd sent view after].
      rewrite Hlist. cbn [snd view sent after]. rewrite <- app_assoc.
      split; [ destruct (view w); vm_compute; reflexivity | reflexivity ].
    + intros e dropped Hdata Hfile. rewrite (run_handleDrop _ _ _ Hdata Hfile).
      change (uploadToStorage [(lit "file", FileValue file)])
        with (api (call_uploadToStorage [(lit "file", FileValue file)])).
      rewrite run_api_after, run_api_table. cbn [fst snd]. rewrite Hupload.
      rewrite run_refreshStorage.
      change listStorageDocuments with (api call_listStorageDocuments).
      rewrite !run_api_after, run_api_table. cbn [fst snd sent view after].
      rewrite Hlist. cbn [snd view sent after]. rewrite <- app_assoc.
      split; [ destruct (view w); vm_compute; reflexivity | reflexivity ].
Qed.

Lemma storage_list_replaced_witness :
  storage (view (snd (run (serve (serving draft_doc draft_chunks))
                        (storage_input_onchange {| files := Some [notes_file] |})
                        (start_world loaded_view))))
  = [notes_entry; draft_entry].
Proof.
  destruct (storage_list_replaced (serve (serving draft_doc draft_chunks))
              (start_world loaded_view) [notes_entry; draft_entry])
    as (_ & Hupload).
  destruct (Hupload notes_file
              {| StorageUploadResponse.file_name := lit "notes.txt";
                 StorageUploadResponse.size_bytes := 3600%Z;
                 StorageUploadResponse.stored := true |} eq_refl eq_refl)
    as (Hdialog & _).
  destruct (Hdialog {| files := Some [notes_file] |} eq_refl) as (Hview & _).
  rewrite Hview. reflexivity.
Defined.

(** X9. When a storage upload succeeds and the list refresh that follows
    fails with [e], the two upload paths end differently.  After a dialog
    upload the status is the file-added text, set after the refresh, and
    the failure of the refresh is not shown; after a drop it is the error
    text of [e], since the refresh comes last.  Both leave the storage list
    as it was. *)
Theorem upload_paths_differ_on_list_failure (srv : Server) (w : World)
  (file : File) (stored : StorageUploadResponse.t) (e : Error) :
  let upload := call_uploadToStorage [(lit "file", FileValue file)] in
  fst (run srv (api upload) w) = Fulfilled stored ->
  fst (run srv listStorageDocuments (snd (run srv (api upload) w))) = Rejected e ->
  (forall input : HTMLInputElement,
     chosen_file (Some input) = Some file ->
     view (snd (run srv (storage_input_onchange input) w))
       = apply (setStatus (lit "Файл добавлен в хранилище")) (view w)) /\
  (forall (ev : DragEvent) (dropped : list File),
     dataTransfer ev = Some dropped ->
     nth_error dropped 0 = Some file ->
     view (snd (run srv (handleDrop ev) w))
       = apply (setStatus (lit "Ошибка: " ++ message e)) (view w)).
Proof.
  intros upload Hupload Hlist. subst upload.
  change listStorageDocuments with (api call_listStorageDocuments) in *.
  rewrite !run_api_table in Hlist. rewrite run_api_table in Hupload. cbn [fst snd sent view] in *.
  split.
  - intros input Hfile. rewrite (run_storage_input_onchange _ _ _ Hfile).
    change (uploadToStorage [(lit "file", FileValue file)])
      with (api (call_uploadToStorage [(lit "file", FileValue file)])).
    rewrite run_api_after, run_api_table. cbn [fst snd]. rewrite Hupload.
    rewrite run_refreshStorage.
    change listStorageDocuments with (api call_listStorageDocuments).
    rewrite run_api_after, run_api_table. cbn [fst snd sent view after].
    rewrite Hlist. cbn [snd view after]. destruct (view w); vm_compute; reflexivity.
  - intros ev dropped Hdata Hfile. rewrite (run_handleDrop _ _ _ Hdata Hfile).
    change (uploadToStorage [(lit "file", FileValue file)])
      with (api (call_uploadToStorage [(lit "file", FileValue file)])).
    rewrite run_api_after, run_api_table. cbn [fst snd]. rewrite Hupload.
    rewrite run_refreshStorage.
    change listStorageDocuments with (api call_listStorageDocuments).
    rewrite !run_api_after, run_api_table. cbn [fst snd sent view after].
    rewrite Hlist. cbn [snd view after]. destruct (view w); vm_compute; reflexivity.
Qed.

Lemma upload_paths_differ_on_list_failure_witness :
  status (view (snd (run (serve list_unavailable)
                       (storage_input_onchange {| files := Some [notes_file] |})
                       (start_world loaded_view))))
    = lit "Файл добавлен в хранилище" /\
  status (view (snd (run (serve list_unavailable)
                       (handleDrop {| dataTransfer := Some [notes_file] |})
                       (start_world loaded_view))))
    = lit "Ошибка: list unavailable".
Proof.
  destruct (@upload_paths_differ_on_list_failure (serve list_unavailable)
              (start_world loaded_view) notes_file
              {| StorageUploadResponse.file_name := lit "notes.txt";
                 StorageUploadResponse.size_bytes := 3600%Z;
                 StorageUploadResponse.stored := true |}
              (new_Error (lit "list unavailable")) eq_refl eq_refl)
    as (Hdialog & Hdrop).
  split.
  - rewrite (Hdialog {| files := Some [notes_file] |} eq_refl). reflexivity.
  - rewrite (Hdrop {| dataTransfer := Some [notes_file] |} [notes_file]
               eq_refl eq_refl).
    vm_compute. reflexivity.
Defined.

(* ----------------------------------------------------------------- *)
(** *** The status and the document card *)

(** X10. The footer status and the document card agree after a
    current-document refresh, whatever its outcome (the status line of the
    document, or the default text when there is none), and after every
    upload-and-index or make-current whose call succeeded, whatever became
    of the chunk refresh. *)
Theorem status_matches_card (srv : Server) (w : World) (s : View) :
  status (view (snd (run srv refreshCurrentDocument w)))
    = document_card (view (snd (run srv refreshCurrentDocument w))) /\
  (forall (uploadInputRef : option HTMLInputElement) (file : File)
          (resp : UploadResponse.t),
     chosen_file uploadInputRef = Some file ->
     fst (run srv (uploadAndIndexDocument (upload_form file s)) w) = Fulfilled resp ->
     status (view (snd (run srv (handleUploadAndIndex uploadInputRef s) w)))
       = document_card (view (snd (run srv (handleUploadAndIndex uploadInputRef s) w)))) /\
  (forall (fileName : str) (resp : UploadResponse.t),
     fst (run srv (loadFromStorage (load_params fileName s)) w) = Fulfilled resp ->
     status (view (snd (run srv (handleMakeCurrent s fileName) w)))
       = document_card (view (snd (run srv (handleMakeCurrent s fileName) w)))).
Proof.
  repeat apply conj.
  - rewrite run_refreshCurrentDocument.
    destruct (run srv getCurrentDocument w) as [[info | err] w'];
      cbn [snd view after apply status currentDoc];
      unfold document_card, current_document_line;
      cbn [currentDoc]; reflexivity.
  - intros ref file resp Hfile Hcall.
    rewrite (run_handleUploadAndIndex _ _ _ _ Hfile).
    change (uploadAndIndexDocument (upload_form file s))
      with (api (call_uploadAndIndexDocument (upload_form file s))) in *.
    rewrite !run_api_after, Hcall. cbn [fst snd]. unfold document_card.
    destruct (adopt_spec srv resp
                (after (setStatus (lit "Загрузка и индексация..."))
                   (after (setIsLoading true)
                      (snd (run srv (api (call_uploadAndIndexDocument
                                            (upload_form file s))) w)))))
      as (Hdoc & _ & Hstatus & _).
    rewrite Hdoc, Hstatus. unfold current_document_line. reflexivity.
  - intros fileName resp Hcall. rewrite run_handleMakeCurrent.
    change (loadFromStorage (load_params fileName s))
      with (api (call_loadFromStorage (load_params fileName s))) in *.
    rewrite !run_api_after, Hcall. cbn [fst snd]. unfold document_card.
    destruct (adopt_spec srv resp
                (after (setStatus (lit "Загрузка из хранилища..."))
                   (after (setIsLoading true)
                      (snd (run srv (api (call_loadFromStorage
                                            (load_params fileName s))) w)))))
      as (Hdoc & _ & Hstatus & _).
    rewrite Hdoc, Hstatus. unfold current_document_line. reflexivity.
Qed.

Lemma status_matches_card_witness :
  let v' := view (snd (run (serve chunks_unavailable)
                         (handleMakeCurrent initial_view (lit "notes.txt"))
                         (start_world initial_view))) in
  chunks v' = [] /\
  document_card v' = lit "Текущий документ: notes.txt, чанков: 5, модель: mini" /\
  status v' = document_card v'.
Proof.
  intros v'. split; [ reflexivity | ]. split; [ vm_compute; reflexivity | ].
  exact (proj2 (proj2 (status_matches_card (serve chunks_unavailable)
                         (start_world initial_view) initial_view))
           (lit "notes.txt") notes_doc eq_refl).
Defined.

(* ----------------------------------------------------------------- *)
(** *** The storage entries on the page *)

(** X11. A file can be made current only through the button of its entry
    in the storage list: the click on "make current" for a name is accepted
    exactly when the list holds an entry of that name, and then starts
    [handleMakeCurrent] with that name; with an empty list, as on the first
    render, no such click exists. *)
Theorem make_current_needs_listing (p : Page) (fileName : str) :
  (In fileName (map StorageEntry.file_name (storage (ui p))) ->
   step (Click (MakeCurrentButton fileName)) p
     = Some (advance (handleMakeCurrent (ui p) fileName) p)) /\
  (~ In fileName (map StorageEntry.file_name (storage (ui p))) ->
   step (Click (MakeCurrentButton fileName)) p = None) /\
  (storage (ui p) = [] ->
   step (Click (MakeCurrentButton fileName)) p = None).
Proof.
  assert (Hno : ~ In fileName (map StorageEntry.file_name (storage (ui p))) ->
                step (Click (MakeCurrentButton fileName)) p = None).
  { intros Hin. simpl.
    destruct (clickable (ui p) (MakeCurrentButton fileName)) eqn:Hc;
      [ | reflexivity ].
    apply clickable_MakeCurrent in Hc. contradiction. }
  repeat apply conj.
  - intros Hin. apply clickable_MakeCurrent in Hin. simpl. rewrite Hin.
    reflexivity.
  - exact Hno.
  - intros Hempty. apply Hno. rewrite Hempty. simpl. auto.
Qed.

Lemma make_current_needs_listing_witness :
  step (Click (MakeCurrentButton (lit "notes.txt"))) first_render = None /\
  step (Click (MakeCurrentButton (lit "notes.txt"))) (mount first_render) = None.
Proof.
  split.
  - apply (make_current_needs_listing first_render (lit "notes.txt")).
    reflexivity.
  - apply (make_current_needs_listing (mount first_render) (lit "notes.txt")).
    reflexivity.
Defined.

(** X12. The size shown for a storage entry is its size in bytes to the
    nearest kibibyte, halves going up: it is within 512 bytes of the true
    size, it never decreases when the size grows, and every file smaller
    than 512 bytes, a non-empty one too, is shown as 0. *)
Theorem size_kb_nearest (n : number) :
  (1024 * size_kb n - 512 <= n < 1024 * size_kb n + 512)%Z /\
  (forall m : number, (n <= m)%Z -> (size_kb n <= size_kb m)%Z) /\
  ((0 <= n < 512)%Z -> size_kb n = 0%Z).
Proof.
  unfold size_kb. repeat apply conj.
  - pose proof (Z.div_mod (n + 512) 1024 ltac:(lia)).
    pose proof (Z.mod_pos_bound (n + 512) 1024 ltac:(lia)). lia.
  - pose proof (Z.div_mod (n + 512) 1024 ltac:(lia)).
    pose proof (Z.mod_pos_bound (n + 512) 1024 ltac:(lia)). lia.
  - intros m Hm. apply Z.div_le_mono; lia.
  - intros Hn. apply Z.div_small. lia.
Qed.

Lemma size_kb_nearest_witness :
  size_kb 511%Z = 0%Z /\ size_kb 512%Z = 1%Z /\ size_kb 3600%Z = 4%Z.
Proof.
  split; [ apply (size_kb_nearest 511%Z); lia | ]. split; reflexivity.
Defined.

(* ----------------------------------------------------------------- *)
(** *** Answers that arrive late *)

(** X13. The answer to a make-current request is applied to the page as it
    is when the answer arrives, whatever happened since the click.  A
    descriptor becomes the current document and the chunk request is sent;
    when that one is answered the chunk list is set, the status names that
    descriptor and the busy flag is lowered, whatever document the page
    holds by then.  A failure sets the error status and lowers the flag.
    Nothing checks that the answer belongs to the latest click. *)
Theorem load_answer_applies (s : View) (fileName : str) (a : Answer)
  (w : Pending) (p : Page) (i : nat) :
  first_await (handleMakeCurrent s fileName) = Some w ->
  nth_error (inflight p) i = Some w ->
  match api_outcome a (call_loadFromStorage (load_params fileName s)) with
  | Fulfilled resp =>
      exists wc : Pending,
        step (Settle i a) p =
        Some {| ui := apply (setCurrentDoc (Some resp)) (ui p);
                uploadInput := uploadInput p;
                inflight := inflight (settled i p) ++ [wc];
                issued := issued p ++ [ get "/api/document/current/chunks" ] |} /\
        forall (p2 : Page) (j : nat) (b : Answer),
          nth_error (inflight p2) j = Some wc ->
          step (Settle j b) p2 =
          Some {| ui := apply (setIsLoading false)
                          (apply (setStatus (current_document_line resp))
                             match api_outcome b call_getCurrentChunks with
                             | Fulfilled data => apply (setChunks data) (ui p2)
                             | Rejected _ =>
                                 apply (setStatus
                                          (lit "Нет документа или не удалось загрузить чанки"))
                                   (apply (setChunks []) (ui p2))
                             end);
                  uploadInput := uploadInput p2;
                  inflight := inflight (settled j p2);
                  issued := issued p2 |}
  | Rejected err =>
      step (Settle i a) p =
      Some {| ui := apply (setIsLoading false)
                      (apply (setStatus (lit "Ошибка: " ++ message err)) (ui p));
              uploadInput := uploadInput p;
              inflight := inflight (settled i p);
              issued := issued p |}
  end.
Proof.
  intros Hw Hi. unfold handleMakeCurrent in Hw.
  cbn -[lit String_ API_BASE current_document_line] in Hw.
  injection Hw as <-.
  rewrite (step_Settle _ a _ Hi). unfold resume.
  rewrite api_outcome_eq. cbn [shape_of].
  destruct (a _ _) as [[[] ? [resp | err]] | err];
    cbn -[lit String_ API_BASE current_document_line settled get step];
    try reflexivity.
  eexists. split; [ reflexivity | ].
  intros p2 j b Hj. rewrite (step_Settle _ b _ Hj). unfold resume.
  rewrite api_outcome_eq. cbn [shape_of].
  destruct (b _ _) as [[[] ? [data | err]] | err];
    cbn -[lit String_ API_BASE current_document_line settled]; reflexivity.
Qed.

Lemma load_answer_applies_witness :
  exists p' : Page,
    step (Settle 0 (serving notes_doc notes_chunks)) two_loads_page = Some p' /\
    currentDoc (ui p') = Some notes_doc /\
    map url (issued two_loads_page)
      = [ lit "http://localhost:8000/api/storage/list";
          lit "http://localhost:8000/api/document/current";
          lit "http://localhost:8000/api/document/current/chunks";
          lit "http://localhost:8000/api/storage/load";
          lit "http://localhost:8000/api/storage/load" ].
Proof.
  assert (Hout : api_outcome (serving notes_doc notes_chunks)
                   (call_loadFromStorage
                      (load_params (lit "notes.txt") (ui listed_page)))
                 = Fulfilled notes_doc) by reflexivity.
  pose proof (@load_answer_applies (ui listed_page) (lit "notes.txt")
                (serving notes_doc notes_chunks) _ two_loads_page 0
                eq_refl eq_refl) as H.
  rewrite Hout in H. destruct H as (wc & Hstep & _).
  eexists. split; [ exact Hstep | ].
  split; [ reflexivity | vm_compute; reflexivity ].
Defined.

(** The clicks were notes.txt and then draft.txt; the answers for draft.txt
    arrive first, those for notes.txt last: the page ends on notes.txt. *)
Example last_answer_wins :
  observe (fun v => (currentDoc v, chunks v, status v, isLoading v))
    [ Settle 0 (serving notes_doc notes_chunks); Settle 0 no_document;
      Settle 0 no_document;
      Click (MakeCurrentButton (lit "notes.txt"));
      Click (MakeCurrentButton (lit "draft.txt"));
      Settle 1 (serving draft_doc draft_chunks);
      Settle 1 (serving draft_doc draft_chunks);
      Settle 0 (serving notes_doc notes_chunks);
      Settle 0 (serving notes_doc notes_chunks) ]
  = Some (Some notes_doc, notes_chunks,
          lit "Текущий документ: notes.txt, чанков: 5, модель: mini", false).
Proof. vm_compute. reflexivity. Qed.

(* ----------------------------------------------------------------- *)
(** *** The mount effect to its end *)

Lemma mount_first_render :
  exists w0 w1,
    parked refreshStorage = Some w0 /\
    parked (refreshCurrentDocument ;; refreshChunks) = Some w1 /\
    mount first_render =
    {| ui := initial_view;
       uploadInput := uploadInput first_render;
       inflight := [w0; w1];
       issued := [ get "/api/storage/list"; get "/api/document/current" ] |}.
Proof. do 2 eexists. split; [ reflexivity | ]. split; reflexivity. Qed.

Ltac arrive :=
  match goal with
  | Hw : parked refreshStorage = Some ?w
    |- context [step (Settle ?i ?a) ?p] =>
      rewrite (@step_Settle i a p w eq_refl), (storage_arrives a _ Hw)
  | Hw : parked refreshChunks = Some ?w
    |- context [step (Settle ?i ?a) ?p] =>
      rewrite (@step_Settle i a p w eq_refl), (chunks_arrive a _ Hw)
  | Hw : parked (refreshCurrentDocument ;; refreshChunks) = Some ?w
    |- context [step (Settle ?i ?a) ?p] =>
      let wc := fresh "wc" in
      let Hwc := fresh "Hwc" in
      let Hdoc := fresh "Hdoc" in
      rewrite (@step_Settle i a p w eq_refl);
      destruct (document_arrives a (settled i p) Hw) as (wc & Hwc & Hdoc);
      rewrite Hdoc; clear Hdoc Hw
  end;
  cbn [settled ui uploadInput inflight issued firstn skipn app].

(** X14. The mount effect comes to rest after exactly three requests, in
    whatever order the answers arrive: nothing stays in flight, the busy
    flag was never raised, and the storage list, the current document and
    the chunk list that are left depend on the three answers only, not on
    their order. *)
Theorem mount_comes_to_rest (a0 a b : Answer) (es : list Event) :
  In es (mount_arrivals a0 a b) ->
  exists p3 : Page,
    steps es (mount first_render) = Some p3 /\
    inflight p3 = [] /\
    issued p3 = [ get "/api/storage/list"; get "/api/document/current";
                  get "/api/document/current/chunks" ] /\
    isLoading (ui p3) = false /\
    storage (ui p3)
      = match api_outcome a0 call_listStorageDocuments with
        | Fulfilled list => list
        | Rejected _ => []
        end /\
    currentDoc (ui p3)
      = match api_outcome a call_getCurrentDocument with
        | Fulfilled info => Some info
        | Rejected _ => None
        end /\
    chunks (ui p3) = refreshed_chunks (api_outcome b call_getCurrentChunks).
Proof.
  intros Hes.
  destruct mount_first_render as (w0 & w1 & Hw0 & Hw1 & Hmount).
  rewrite Hmount. cbn [mount_arrivals In] in Hes.
  destruct Hes as [<- | [<- | [<- | []]]]; cbn [steps];
    arrive; arrive; arrive;
    (eexists; split; [ reflexivity | ]);
    cbn [ui inflight issued];
    destruct (api_outcome a0 _), (api_outcome a _), (api_outcome b _);
    repeat apply conj; reflexivity.
Qed.

Lemma mount_comes_to_rest_witness :
  exists p3 : Page,
    steps [ Settle 1 healthy; Settle 1 healthy; Settle 0 healthy ]
      (mount first_render) = Some p3 /\
    inflight p3 = [] /\
    issued p3 = [ get "/api/storage/list"; get "/api/document/current";
                  get "/api/document/current/chunks" ] /\
    isLoading (ui p3) = false /\
    storage (ui p3) = [notes_entry] /\
    currentDoc (ui p3) = Some notes_doc /\
    chunks (ui p3) = notes_chunks.
Proof.
  apply (@mount_comes_to_rest healthy healthy healthy
           [ Settle 1 healthy; Settle 1 healthy; Settle 0 healthy ]).
  right. right. left. reflexivity.
Defined.
